(** * mediafire-fuse: the open-handle manager, the VFS adapter and two
      pieces of the mfapi library, embedded and checked against their
      specification.

    Sources embedded here:
    - [fuse/operations.c]    the FUSE callbacks ([mediafirefs_getattr],
      [mediafirefs_mkdir], [mediafirefs_open], [mediafirefs_create],
      [mediafirefs_read], [mediafirefs_write], [mediafirefs_release]);
    - [mfapi/file.c]         the file object ([file_set_key], [file_get_key]);
    - [mfapi/apicalls/folder_create.c]  ([mfconn_api_folder_create]).

    The folder tree ([fuse/hashtbl.c]), the string vector
    ([utils/stringv.c]), the connection object and the HTTP layer are not
    part of the embedded sources.  The callbacks are therefore defined over
    an arbitrary implementation of these ([externals]); a reference
    implementation that follows the specification ([Reference]) is used
    where a concrete backend is needed. *)

From Stdlib Require Import ZArith Lia Bool Ascii String.
From Stdlib.Strings Require Import Byte.
From stdpp Require Import gmap strings list pretty.

Local Open Scope string_scope.
Local Open Scope list_scope.
Local Open Scope Z_scope.

#[global] Instance byte_eq_decision : EqDecision byte := Byte.byte_eq_dec.

(** ** C scalars and constants *)

(** Conversion to a 32-bit [int], as done when a [size_t] or [ssize_t] is
    stored in or returned as an [int]. *)
Definition INT_MAX : Z := 2147483647.
Definition to_int (z : Z) : Z := (z + 2 ^ 31) mod 2 ^ 32 - 2 ^ 31.

(** [errno.h] (Linux values). *)
Definition ENOENT : Z := 2.
Definition EAGAIN : Z := 11.
Definition EACCES : Z := 13.

(** [fcntl.h] access modes. *)
Definition O_RDONLY : Z := 0.
Definition O_WRONLY : Z := 1.
Definition O_RDWR : Z := 2.
Definition O_ACCMODE : Z := 3.

(** [sys/stat.h] file types; permission bits are octal in the source. *)
Definition S_IFDIR : Z := 16384.   (* 0040000 *)
Definition S_IFREG : Z := 32768.   (* 0100000 *)
Definition perm_0755 : Z := 493.
Definition perm_0666 : Z := 438.
Definition perm_0644 : Z := 420.

(** ** C strings

    A [char *] argument is a [string]; what C sees of it is the text in
    front of the first NUL character. *)
Fixpoint cstr (s : string) : string :=
  match s with
  | EmptyString => EmptyString
  | String c s' => if Ascii.eqb c Ascii.zero then EmptyString else String c (cstr s')
  end.

Definition strlen (s : string) : nat := String.length (cstr s).

(** [strcmp(a, b) == 0]. *)
Definition strcmp_eq (a b : string) : bool := String.eqb (cstr a) (cstr b).

(** [memset(a, 0, n)] on a character array. *)
Definition memset0 (a : list ascii) (n : nat) : list ascii :=
  replicate n Ascii.zero ++ drop n a.

(** [strncpy(dest, src, n)]: at most [n] characters of [src], padded with
    NUL up to [n] when [src] is shorter. *)
Definition strncpy (dest : list ascii) (src : string) (n : nat) : list ascii :=
  take n (list_ascii_of_string (cstr src) ++ replicate n Ascii.zero) ++ drop n dest.

(** The C string that starts at the beginning of a character array. *)
Definition string_at (a : list ascii) : string :=
  cstr (string_of_list_ascii a).

(** ** mfapi/file.c *)

Module File.

(** [struct mffile] ([struct _file_s] in the older revision of the file). *)
Record mffile := {
  quickkey : list ascii;        (* char quickkey[18] *)
  hash : list ascii;            (* char hash[65]     *)
  name : list ascii;            (* char name[256]    *)
  mtime : list ascii;           (* char mtime[16]    *)
  revision : Z;                 (* uint64_t          *)
  share_link : option string;
  direct_link : option string;
  onetime_link : option string
}.

Definition sizeof_quickkey : nat := 18.

(** [file_alloc]: [calloc] hands out a zeroed object. *)
Definition file_alloc : mffile :=
  {| quickkey := replicate 18 Ascii.zero; hash := replicate 65 Ascii.zero;
     name := replicate 256 Ascii.zero; mtime := replicate 16 Ascii.zero;
     revision := 0; share_link := None; direct_link := None;
     onetime_link := None |}.

Definition set_quickkey (f : mffile) (q : list ascii) : mffile :=
  {| quickkey := q; hash := hash f; name := name f; mtime := mtime f;
     revision := revision f; share_link := share_link f;
     direct_link := direct_link f; onetime_link := onetime_link f |}.

(** [file_set_key(file, key)]: the return value and the object behind
    [file] afterwards.  [None] is the NULL pointer. *)
Definition file_set_key (file : option mffile) (key : option string)
  : Z * option mffile :=
  match file with
  | None => (-1, file)
  | Some f =>
    match key with
    | None => (-1, file)
    | Some k =>
      let len := to_int (Z.of_nat (strlen k)) in
      if negb (len =? 11) && negb (len =? 15) then (-1, file)
      else
        let q := memset0 (quickkey f) sizeof_quickkey in
        let q := strncpy q k (sizeof_quickkey - 1) in
        (0, Some (set_quickkey f q))
    end
  end.

(** [file_get_key(file)]: a pointer to the [quickkey] array, read as a C
    string. *)
Definition file_get_key (file : option mffile) : option string :=
  match file with
  | None => None
  | Some f => Some (string_at (quickkey f))
  end.

Definition sizeof_hash : nat := 65.
Definition sizeof_name : nat := 256.

Definition set_hash (f : mffile) (a : list ascii) : mffile :=
  {| quickkey := quickkey f; hash := a; name := name f; mtime := mtime f;
     revision := revision f; share_link := share_link f;
     direct_link := direct_link f; onetime_link := onetime_link f |}.

Definition set_name (f : mffile) (a : list ascii) : mffile :=
  {| quickkey := quickkey f; hash := hash f; name := a; mtime := mtime f;
     revision := revision f; share_link := share_link f;
     direct_link := direct_link f; onetime_link := onetime_link f |}.

Definition set_share_link (f : mffile) (l : option string) : mffile :=
  {| quickkey := quickkey f; hash := hash f; name := name f; mtime := mtime f;
     revision := revision f; share_link := l;
     direct_link := direct_link f; onetime_link := onetime_link f |}.

Definition set_direct_link (f : mffile) (l : option string) : mffile :=
  {| quickkey := quickkey f; hash := hash f; name := name f; mtime := mtime f;
     revision := revision f; share_link := share_link f;
     direct_link := l; onetime_link := onetime_link f |}.

Definition set_onetime_link (f : mffile) (l : option string) : mffile :=
  {| quickkey := quickkey f; hash := hash f; name := name f; mtime := mtime f;
     revision := revision f; share_link := share_link f;
     direct_link := direct_link f; onetime_link := l |}.

(** [file_set_hash(file, hash)]; the length test is made on the [size_t]
    that [strlen] returns. *)
Definition file_set_hash (file : option mffile) (h : option string)
  : Z * option mffile :=
  match file with
  | None => (-1, file)
  | Some f =>
    match h with
    | None => (-1, file)
    | Some h =>
      (* system supports SHA256 (current) and MD5 (legacy) *)
      if (strlen h <? 32)%nat then (-1, file)
      else
        let a := memset0 (hash f) sizeof_hash in
        let a := strncpy a h (sizeof_hash - 1) in
        (0, Some (set_hash f a))
    end
  end.

Definition file_get_hash (file : option mffile) : option string :=
  match file with
  | None => None
  | Some f => Some (string_at (hash f))
  end.

(** [file_set_name(file, name)]. *)
Definition file_set_name (file : option mffile) (n : option string)
  : Z * option mffile :=
  match file with
  | None => (-1, file)
  | Some f =>
    match n with
    | None => (-1, file)
    | Some n =>
      if (255 <? strlen n)%nat then (-1, file)
      else
        let a := memset0 (name f) sizeof_name in
        let a := strncpy a n (sizeof_name - 1) in
        (0, Some (set_name f a))
    end
  end.

Definition file_get_name (file : option mffile) : option string :=
  match file with
  | None => None
  | Some f => Some (string_at (name f))
  end.

(** [file_set_share_link(file, share_link)]: the link held so far is freed
    and a copy of the new one ([strdup]) takes its place. *)
Definition file_set_share_link (file : option mffile) (l : option string)
  : Z * option mffile :=
  match file with
  | None => (-1, file)
  | Some f =>
    match l with
    | None => (-1, file)
    | Some l => (0, Some (set_share_link f (Some (cstr l))))
    end
  end.

Definition file_get_share_link (file : option mffile) : option string :=
  match file with
  | None => None
  | Some f => share_link f
  end.

Definition file_set_direct_link (file : option mffile) (l : option string)
  : Z * option mffile :=
  match file with
  | None => (-1, file)
  | Some f =>
    match l with
    | None => (-1, file)
    | Some l => (0, Some (set_direct_link f (Some (cstr l))))
    end
  end.

Definition file_get_direct_link (file : option mffile) : option string :=
  match file with
  | None => None
  | Some f => direct_link f
  end.

Definition file_set_onetime_link (file : option mffile) (l : option string)
  : Z * option mffile :=
  match file with
  | None => (-1, file)
  | Some f =>
    match l with
    | None => (-1, file)
    | Some l => (0, Some (set_onetime_link f (Some (cstr l))))
    end
  end.

Definition file_get_onetime_link (file : option mffile) : option string :=
  match file with
  | None => None
  | Some f => onetime_link f
  end.

End File.


(** ** utils/stringv.c *)

(** Modelled from the spec: the string vector of [utils/stringv.c], which is
    not among the embedded sources.  The specification describes it as an
    ordered multiset of path strings with add, remove and contains; the
    callbacks rely on [stringv_del] returning 0 exactly when an entry was
    found, and on its removing a single entry. *)
Definition stringv_mem (sv : list string) (e : string) : bool :=
  bool_decide (e ∈ sv).

(** Modelled from the spec: [stringv_add] of [utils/stringv.c]; the new
    entry goes to the end. *)
Definition stringv_add (sv : list string) (e : string) : list string :=
  sv ++ [e].

(** Modelled from the spec: [stringv_del] of [utils/stringv.c]; the first
    entry equal to [e] is removed and 0 returned, or nothing is removed and
    a non-zero value returned. *)
Fixpoint stringv_del (sv : list string) (e : string) : Z * list string :=
  match sv with
  | [] => (-1, [])
  | x :: sv' =>
    if decide (x = e) then (0, sv')
    else let '(r, sv'') := stringv_del sv' e in (r, x :: sv'')
  end.

(** Multiplicity of a path in a vector. *)
Fixpoint stringv_count (sv : list string) (e : string) : nat :=
  match sv with
  | [] => 0%nat
  | x :: sv' => ((if decide (x = e) then 1 else 0) + stringv_count sv' e)%nat
  end.

(** ** Path helpers *)

(** Last character of a string is [c]. *)
Fixpoint ends_with (c : ascii) (s : string) : bool :=
  match s with
  | EmptyString => false
  | String a EmptyString => Ascii.eqb a c
  | String _ s' => ends_with c s'
  end.

Fixpoint drop_last (s : string) : string :=
  match s with
  | EmptyString => EmptyString
  | String _ EmptyString => EmptyString
  | String a s' => String a (drop_last s')
  end.

(** [strrchr(s, c)] followed by cutting [s] at the position found: the text
    in front of the last [c] and the text behind it; [None] when [c] does
    not occur. *)
Fixpoint strrchr_split (c : ascii) (s : string) : option (string * string) :=
  match s with
  | EmptyString => None
  | String a s' =>
    match strrchr_split c s' with
    | Some (l, r) => Some (String a l, r)
    | None => if Ascii.eqb a c then Some (EmptyString, s') else None
    end
  end.

Definition slash : ascii := "/"%char.

Fixpoint strip_trailing_slashes (fuel : nat) (s : string) : string :=
  match fuel with
  | O => s
  | S n => if ends_with slash s then strip_trailing_slashes n (drop_last s) else s
  end.

(** [basename(3)] and [dirname(3)] of [libgen.h]. *)
Definition basename (p : string) : string :=
  match p with
  | EmptyString => "."
  | _ =>
    let q := strip_trailing_slashes (String.length p) p in
    match q with
    | EmptyString => "/"
    | _ => match strrchr_split slash q with
           | Some (_, b) => b
           | None => q
           end
    end
  end.

Definition dirname (p : string) : string :=
  match p with
  | EmptyString => "."
  | _ =>
    let q := strip_trailing_slashes (String.length p) p in
    match q with
    | EmptyString => "/"
    | _ => match strrchr_split slash q with
           | None => "."
           | Some (d, _) =>
             match strip_trailing_slashes (String.length d) d with
             | EmptyString => "/"
             | d' => d'
             end
           end
    end
  end.

(** ** mfapi/file.c: the direct download *)

(** How [file_download_direct] ends: it returns, or it reads
    [local_dir[strlen(local_dir) - 1]] of an empty [local_dir]. *)
Inductive download (D : Type) :=
| Downloaded (bytes_read : Z) (disk : D)
| DownloadFault.

Arguments Downloaded {D}.
Arguments DownloadFault {D}.

(** [file_download_direct(file, local_dir)] over a local disk [D].
    [http_get_file] is the transfer of [utils/http.c] (its return value and
    the disk it leaves), [stat_size] is [stat(2)]: the size of the file at a
    path, [None] when [stat] fails.  [strdup_printf] of [utils/strings.c] is
    taken to format as [printf] does, so that ["%s%s"] and ["%s/%s"] join
    their two arguments. *)
Definition file_download_direct {D : Type}
    (http_get_file : D -> string -> string -> Z * D)
    (stat_size : D -> string -> option Z)
    (file : option File.mffile) (local_dir : option string) (disk : D) : download D :=
  match file with
  | None => Downloaded (-1) disk
  | Some _ =>
    match local_dir with
    | None => Downloaded (-1) disk
    | Some local_dir =>
      match File.file_get_direct_link file with
      | None => Downloaded (-1) disk
      | Some url =>
        match File.file_get_name file with
        | None => Downloaded (-1) disk
        | Some file_name =>
          if (strlen file_name <? 1)%nat then Downloaded (-1) disk
          else
            match cstr local_dir with
            | EmptyString => DownloadFault
            | dir =>
              let file_path :=
                if ends_with "/"%char dir
                then dir +:+ cstr file_name
                else dir +:+ "/" +:+ cstr file_name in
              let '(retval, disk') := http_get_file disk url file_path in
              (* it is preferable to have the vfs tell us how many bytes
                 the transfer actually is *)
              match stat_size disk' file_path with
              | None => Downloaded (-1) disk'
              | Some st_size => Downloaded st_size disk'
              end
            end
        end
      end
    end
  end.

(** ** Process state seen by the callbacks *)

(** [struct stat], the fields the callbacks fill. *)
Record stat := {
  st_mode : Z; st_nlink : Z; st_uid : Z; st_gid : Z; st_size : Z;
  st_atime : Z; st_mtime : Z; st_ctime : Z
}.

(** [struct mediafirefs_openfile]. *)
Record mediafirefs_openfile := {
  fd : Z;               (* to fread and fwrite from/to the file *)
  path : string;
  is_readonly : bool;   (* whether or not a patch has to be uploaded when closing *)
  is_local : bool       (* whether or not to do a new file upload when closing *)
}.

(** [struct fuse_file_info], the two fields used. *)
Record fuse_file_info := { flags : Z; fh : Z }.

(** Open descriptors and the staged files behind them.  Several
    descriptors may refer to one file. *)
Record fs_state := {
  inodes : gmap nat (list byte);
  fdt : gmap Z nat
}.

Definition file_content (fs : fs_state) (fd : Z) : option (list byte) :=
  match fdt fs !! fd with
  | None => None
  | Some i => Some (default [] (inodes fs !! i))
  end.

(** [pread(fd, buf, size, offset)]: the return value and the bytes put in
    [buf]. *)
Definition pread (fs : fs_state) (fd : Z) (size : nat) (offset : Z) : Z * list byte :=
  match file_content fs fd with
  | None => (-1, [])
  | Some old =>
    if offset <? 0 then (-1, [])
    else let data := take size (drop (Z.to_nat offset) old) in
         (Z.of_nat (length data), data)
  end.

(** [pwrite(fd, buf, size, offset)] with [buf] holding [size] bytes: a gap
    between the end of the file and [offset] reads as zeros. *)
Definition pwrite (fs : fs_state) (fd : Z) (buf : list byte) (offset : Z) : Z * fs_state :=
  match fdt fs !! fd with
  | None => (-1, fs)
  | Some i =>
    if offset <? 0 then (-1, fs)
    else match buf with
    | [] => (0, fs)
    | _ =>
      let old := default [] (inodes fs !! i) in
      let off := Z.to_nat offset in
      let new := take off (old ++ replicate off x00) ++ buf ++ drop (off + length buf) old in
      (Z.of_nat (length buf), {| inodes := <[i := new]> (inodes fs); fdt := fdt fs |})
    end
  end.

(** [close(fd)]. *)
Definition close (fs : fs_state) (fd : Z) : fs_state :=
  {| inodes := inodes fs; fdt := delete fd (fdt fs) |}.

(** Calls that leave [operations.c] and [folder_create.c], in the order
    they are made. *)
Inductive call :=
| CallTreeUpdate (force : bool)
| CallTreeGetattr (path : string)
| CallTreePathGetKey (path : string)
| CallTreeOpenFile (path : string) (flags : Z) (update : bool)
| CallTreeTmpOpen
| CallTreeUploadPatch (path : string)
| CallUploadSimple (folder_key : option string) (content : list byte) (file_name : string)
| CallUploadPoll (upload_key : string)
| CallSignedGet (ssl : Z) (api : string) (args : string)
| CallHttpGetBuf (url : option string).

(** The connection pointer handed to an API call: NULL, or the connection
    of the mount (whose state is part of the backend state). *)
Inductive mfconn_ptr := mfconn_NULL | mfconn_of_ctx.

(** The functions the embedded sources call and do not define.  [T] is the
    state behind [ctx->tree] and [ctx->conn]: the folder tree, the
    connection and the remote account. *)
Record externals (T : Type) := {
  (* fuse/hashtbl.c *)
  folder_tree_update : T -> bool -> T;
  folder_tree_getattr : T -> string -> stat -> Z * stat * T;
  folder_tree_path_get_key : T -> string -> option string * T;
  folder_tree_open_file : T -> fs_state -> string -> Z -> bool -> Z * T * fs_state;
  folder_tree_tmp_open : T -> fs_state -> Z * T * fs_state;
  folder_tree_upload_patch : T -> fs_state -> string -> Z * T;
  (* mfapi/apicalls *)
  mfconn_api_upload_simple : T -> option string -> list byte -> string -> Z * option string * T;
  mfconn_api_upload_poll_upload : T -> string -> Z * Z * Z * T;
  (* mfapi/mfconn.c, utils/http.c *)
  mfconn_create_signed_get : T -> Z -> string -> string -> option string * T;
  http_get_buf : T -> option string -> Z * T;
  (* unistd.h *)
  geteuid : Z;
  getegid : Z
}.

Arguments folder_tree_update {T}.
Arguments folder_tree_getattr {T}.
Arguments folder_tree_path_get_key {T}.
Arguments folder_tree_open_file {T}.
Arguments folder_tree_tmp_open {T}.
Arguments folder_tree_upload_patch {T}.
Arguments mfconn_api_upload_simple {T}.
Arguments mfconn_api_upload_poll_upload {T}.
Arguments mfconn_create_signed_get {T}.
Arguments http_get_buf {T}.
Arguments geteuid {T}.
Arguments getegid {T}.

(** The state of the mounted process: [struct mediafirefs_context_private]
    (tree and connection, the two string vectors), the descriptor table,
    the heap of open-file structures, and the calls made so far. *)
Record world (T : Type) := {
  backend : T;
  sv_writefiles : list string;
  sv_readonlyfiles : list string;
  fs : fs_state;
  heap : gmap Z mediafirefs_openfile;
  calls : list call
}.

Arguments backend {T}.
Arguments sv_writefiles {T}.
Arguments sv_readonlyfiles {T}.
Arguments fs {T}.
Arguments heap {T}.
Arguments calls {T}.

(** How a callback ends: it returns, the process exits ([exit(1)]), it
    dereferences an invalid pointer, or it is still polling when the fuel
    of the model runs out. *)
Inductive result (T A : Type) :=
| Ret (a : A) (w : world T)
| Exit (status : Z)
| Fault
| Spin (w : world T).

Arguments Ret {T A}.
Arguments Exit {T A}.
Arguments Fault {T A}.
Arguments Spin {T A}.

(** ** The callbacks *)

Section Operations.

Context {T : Type} (X : externals T).

(** State and early-exit monad of the callbacks. *)
Definition M (A : Type) : Type := world T -> result T A.

Definition ret {A} (a : A) : M A := fun w => Ret a w.

Definition bind {A B} (m : M A) (k : A -> M B) : M B :=
  fun w =>
    match m w with
    | Ret a w' => k a w'
    | Exit s => Exit s
    | Fault => Fault
    | Spin w' => Spin w'
    end.

Notation "'let*' p ':=' m 'in' k" :=
  (bind m (fun x => match x with p => k end))
  (at level 10, p pattern, m at level 100, k at level 200, only parsing).
Notation "'do' m ';' k" := (bind m (fun _ => k))
  (at level 10, m at level 100, k at level 200, only parsing).

Definition get : M (world T) := fun w => Ret w w.
Definition exit {A} (status : Z) : M A := fun _ => Exit status.
Definition fault {A} : M A := fun _ => Fault.
Definition spin {A} : M A := fun w => Spin w.

Definition set_backend (b : T) (w : world T) : world T :=
  {| backend := b; sv_writefiles := sv_writefiles w;
     sv_readonlyfiles := sv_readonlyfiles w; fs := fs w; heap := heap w;
     calls := calls w |}.
Definition set_writefiles (sv : list string) (w : world T) : world T :=
  {| backend := backend w; sv_writefiles := sv;
     sv_readonlyfiles := sv_readonlyfiles w; fs := fs w; heap := heap w;
     calls := calls w |}.
Definition set_readonlyfiles (sv : list string) (w : world T) : world T :=
  {| backend := backend w; sv_writefiles := sv_writefiles w;
     sv_readonlyfiles := sv; fs := fs w; heap := heap w; calls := calls w |}.
Definition set_fs (f : fs_state) (w : world T) : world T :=
  {| backend := backend w; sv_writefiles := sv_writefiles w;
     sv_readonlyfiles := sv_readonlyfiles w; fs := f; heap := heap w;
     calls := calls w |}.
Definition set_heap (h : gmap Z mediafirefs_openfile) (w : world T) : world T :=
  {| backend := backend w; sv_writefiles := sv_writefiles w;
     sv_readonlyfiles := sv_readonlyfiles w; fs := fs w; heap := h;
     calls := calls w |}.
Definition log (c : call) (w : world T) : world T :=
  {| backend := backend w; sv_writefiles := sv_writefiles w;
     sv_readonlyfiles := sv_readonlyfiles w; fs := fs w; heap := heap w;
     calls := calls w ++ [c] |}.

Definition modify (f : world T -> world T) : M unit := fun w => Ret tt (f w).

(** *** Calls into the functions of [externals] *)

Definition folder_tree_updateM (force : bool) : M unit :=
  modify (fun w =>
    set_backend (folder_tree_update X (backend w) force) (log (CallTreeUpdate force) w)).

Definition folder_tree_getattrM (path : string) (stbuf : stat) : M (Z * stat) :=
  fun w =>
    let '(retval, stbuf', b) := folder_tree_getattr X (backend w) path stbuf in
    Ret (retval, stbuf') (set_backend b (log (CallTreeGetattr path) w)).

Definition folder_tree_path_get_keyM (path : string) : M (option string) :=
  fun w =>
    let '(key, b) := folder_tree_path_get_key X (backend w) path in
    Ret key (set_backend b (log (CallTreePathGetKey path) w)).

Definition folder_tree_open_fileM (path : string) (flags : Z) (update : bool) : M Z :=
  fun w =>
    let '(fd, b, f) := folder_tree_open_file X (backend w) (fs w) path flags update in
    Ret fd (set_fs f (set_backend b (log (CallTreeOpenFile path flags update) w))).

Definition folder_tree_tmp_openM : M Z :=
  fun w =>
    let '(fd, b, f) := folder_tree_tmp_open X (backend w) (fs w) in
    Ret fd (set_fs f (set_backend b (log CallTreeTmpOpen w))).

Definition folder_tree_upload_patchM (path : string) : M Z :=
  fun w =>
    let '(retval, b) := folder_tree_upload_patch X (backend w) (fs w) path in
    Ret retval (set_backend b (log (CallTreeUploadPatch path) w)).

Definition mfconn_api_upload_simpleM (folder_key : option string)
    (content : list byte) (file_name : string) : M (Z * option string) :=
  fun w =>
    let '(retval, upload_key, b) :=
      mfconn_api_upload_simple X (backend w) folder_key content file_name in
    Ret (retval, upload_key)
        (set_backend b (log (CallUploadSimple folder_key content file_name) w)).

Definition mfconn_api_upload_poll_uploadM (upload_key : string) : M (Z * Z * Z) :=
  fun w =>
    let '(retval, status, fileerror, b) :=
      mfconn_api_upload_poll_upload X (backend w) upload_key in
    Ret (retval, status, fileerror) (set_backend b (log (CallUploadPoll upload_key) w)).

Definition mfconn_create_signed_getM (ssl : Z) (api : string) (args : string)
  : M (option string) :=
  fun w =>
    let '(api_call, b) := mfconn_create_signed_get X (backend w) ssl api args in
    Ret api_call (set_backend b (log (CallSignedGet ssl api args) w)).

Definition http_get_bufM (url : option string) : M Z :=
  fun w =>
    let '(retval, b) := http_get_buf X (backend w) url in
    Ret retval (set_backend b (log (CallHttpGetBuf url) w)).

(** *** libc *)

(** [malloc(sizeof(struct mediafirefs_openfile))] followed by the
    assignments to its fields: a non-NULL address that is not in use. *)
Definition fresh_ptr (h : gmap Z mediafirefs_openfile) : Z :=
  1 + map_fold (fun k _ acc => Z.max k acc) 0 h.

Definition malloc (o : mediafirefs_openfile) : M Z :=
  fun w => let p := fresh_ptr (heap w) in Ret p (set_heap (<[p := o]> (heap w)) w).

(** [free(openfile->path); free(openfile)]. *)
Definition free (p : Z) : M unit :=
  modify (fun w => set_heap (delete p (heap w)) w).

(** Dereference of the open-file structure that [file_info->fh] points to. *)
Definition deref (p : Z) : M mediafirefs_openfile :=
  fun w => match heap w !! p with
           | Some o => Ret o w
           | None => Fault
           end.

Definition closeM (fd : Z) : M unit :=
  modify (fun w => set_fs (close (fs w) fd) w).

(** [fh = fdopen(fd, "r"); rewind(fh)]: the stream then delivers the file
    from its first byte.  [fdopen] yields NULL for a descriptor that is not
    open, which [rewind] dereferences. *)
Definition fdopen_rewind (fd : Z) : M (list byte) :=
  fun w => match file_content (fs w) fd with
           | Some content => Ret content w
           | None => Fault
           end.

(** *** mfapi/apicalls/folder_create.c *)

Definition mfconn_api_folder_create (mfconn : mfconn_ptr)
    (parent : option string) (name : option string) : M Z :=
  match mfconn with
  | mfconn_NULL => ret (-1)
  | mfconn_of_ctx =>
    match name with
    | None => ret (-1)
    | Some name =>
      if (strlen name <? 1)%nat then ret (-1)
      else
        (* key must either be 11 chars or "myfiles" *)
        let parent :=
          match parent with
          | Some p =>
            if negb (strlen p =? 13)%nat
            then (if strcmp_eq p "myfiles" then None else parent)
            else parent
          | None => None
          end in
        let* api_call := match parent with
          | Some p =>
            mfconn_create_signed_getM 0 "folder/create.php"
              ("?parent_key=" +:+ cstr p +:+ "&foldername=" +:+ cstr name
                 +:+ "&response_format=json")
          | None =>
            mfconn_create_signed_getM 0 "folder/create.php"
              ("?foldername=" +:+ cstr name +:+ "&response_format=json")
          end in
        let* retval := http_get_bufM api_call in
        ret retval
    end
  end.

(** *** fuse/operations.c *)

Definition mediafirefs_getattr (path : string) (stbuf : stat) : M (Z * stat) :=
  do folder_tree_updateM false ;
  let* (retval, stbuf) := folder_tree_getattrM path stbuf in
  let* ctx := get in
  if negb (retval =? 0) && stringv_mem (sv_writefiles ctx) path then
    ret (0, {| st_uid := geteuid X; st_gid := getegid X; st_ctime := 0;
               st_mtime := 0; st_mode := Z.lor S_IFREG perm_0666;
               st_nlink := 1; st_atime := 0; st_size := 0 |})
  else ret (retval, stbuf).

Definition mediafirefs_mkdir (path : string) (mode : Z) : M Z :=
  match path with
  | EmptyString => fault   (* dirname[strlen(dirname) - 1] *)
  | _ =>
    let dirname := path in
    (* remove possible trailing slash *)
    let dirname := if ends_with slash dirname then drop_last dirname else dirname in
    (* split into dirname and basename *)
    match strrchr_split slash dirname with
    | None => ret (- ENOENT)
    | Some (dirname, basename) =>
      let* key := (match dirname with
              | EmptyString => ret None
              | _ => folder_tree_path_get_keyM dirname
              end) in
      let* retval := mfconn_api_folder_create mfconn_of_ctx key (Some basename) in
      if negb (retval =? 0) then ret (- EAGAIN)
      else do folder_tree_updateM true ; ret 0
    end
  end.

Definition accmode (file_info : fuse_file_info) : Z :=
  Z.land (flags file_info) O_ACCMODE.

Definition set_fh (file_info : fuse_file_info) (p : Z) : fuse_file_info :=
  {| flags := flags file_info; fh := p |}.

Definition mediafirefs_open (path : string) (file_info : fuse_file_info)
  : M (Z * fuse_file_info) :=
  let* ctx := get in
  (* if file is not opened read-only, check if it was already opened in a
     not read-only mode and abort if yes *)
  if negb (accmode file_info =? O_RDONLY) && stringv_mem (sv_writefiles ctx) path
  then ret (- EACCES, file_info)
  else
    let is_open := false in
    let is_open := if stringv_mem (sv_readonlyfiles ctx) path then true else is_open in
    let is_open :=
      if negb is_open && (accmode file_info =? O_RDONLY)
         && stringv_mem (sv_writefiles ctx) path
      then true else is_open in
    let* fd := folder_tree_open_fileM path (flags file_info) (negb is_open) in
    if fd <? 0 then ret (fd, file_info)
    else
      let* openfile := malloc {| fd := fd; is_local := false; path := path;
                           is_readonly := (accmode file_info =? O_RDONLY) |} in
      do (if accmode file_info =? O_RDONLY
       then modify (fun w => set_readonlyfiles (stringv_add (sv_readonlyfiles w) path) w)
       else modify (fun w => set_writefiles (stringv_add (sv_writefiles w) path) w)) ;
      ret (0, set_fh file_info openfile).

Definition mediafirefs_create (path : string) (mode : Z) (file_info : fuse_file_info)
  : M (Z * fuse_file_info) :=
  let* fd := folder_tree_tmp_openM in
  if fd <? 0 then ret (- EACCES, file_info)
  else
    let* openfile := malloc {| fd := fd; is_local := true; is_readonly := false;
                         path := path |} in
    do modify (fun w => set_writefiles (stringv_add (sv_writefiles w) path) w) ;
    ret (0, set_fh file_info openfile).

Definition mediafirefs_read (path : string) (size : nat) (offset : Z)
    (file_info : fuse_file_info) : M (Z * list byte) :=
  let* openfile := deref (fh file_info) in
  let* w := get in
  let '(n, buf) := pread (fs w) (fd openfile) size offset in
  ret (to_int n, buf).

Definition mediafirefs_write (path : string) (buf : list byte) (offset : Z)
    (file_info : fuse_file_info) : M Z :=
  let* openfile := deref (fh file_info) in
  let* w := get in
  let '(n, f) := pwrite (fs w) (fd openfile) buf offset in
  do modify (set_fs f) ;
  ret (to_int n).

(** The polling loop of [mediafirefs_release]: [Some r] when the loop is
    left by [return r], [None] when it is left by [break]. *)
Fixpoint poll_for_completion (fuel : nat) (upload_key : string) : M (option Z) :=
  match fuel with
  | O => spin
  | S fuel' =>
    let* (retval, status, fileerror) := mfconn_api_upload_poll_uploadM upload_key in
    if negb (retval =? 0) then ret (Some (-1))
    else if status =? 99 then ret None
    else poll_for_completion fuel' upload_key   (* sleep(1) *)
  end.

Definition mediafirefs_release (fuel : nat) (_path : string)
    (file_info : fuse_file_info) : M Z :=
  let* openfile := deref (fh file_info) in
  let* ctx := get in
  (* if file was opened as readonly then it just has to be closed *)
  if is_readonly openfile then
    let '(r, sv) := stringv_del (sv_readonlyfiles ctx) (path openfile) in
    if negb (r =? 0) then exit 1
    else
      do modify (set_readonlyfiles sv) ;
      do closeM (fd openfile) ;
      do free (fh file_info) ;
      ret 0
  else
    (* if the file is not readonly, its entry in writefiles has to be removed *)
    let '(r, sv) := stringv_del (sv_writefiles ctx) (path openfile) in
    if negb (r =? 0) then exit 1
    else
      do modify (set_writefiles sv) ;
      if stringv_mem sv (path openfile) then exit 1
      else if is_local openfile then
        (* the file only exists locally, an initial upload has to be done *)
        let file_name := basename (path openfile) in
        let dir_name := dirname (path openfile) in
        let* content := fdopen_rewind (fd openfile) in
        let* folder_key := folder_tree_path_get_keyM dir_name in
        let* (retval, upload_key) := mfconn_api_upload_simpleM folder_key content file_name in
        do closeM (fd openfile) ;        (* fclose(fh) *)
        do free (fh file_info) ;
        match upload_key with
        | Some upload_key =>
          if negb (retval =? 0) then ret (- EACCES)
          else
            (* poll for completion *)
            let* r := poll_for_completion fuel upload_key in
            match r with
            | Some v => ret v
            | None => do folder_tree_updateM true ; ret 0
            end
        | None => ret (- EACCES)
        end
      else
        (* the file was not opened readonly and also existed on the remote *)
        do closeM (fd openfile) ;
        let* retval := folder_tree_upload_patchM (path openfile) in
        do free (fh file_info) ;
        if negb (retval =? 0) then ret (- EACCES)
        else do folder_tree_updateM true ; ret 0.

End Operations.

Arguments M T A : clear implicits.

(** ** The callbacks that delete *)

(** The two API calls that [mediafirefs_rmdir] and [mediafirefs_unlink]
    make and that the embedded sources do not define ([mfapi/apicalls]). *)
Record deletions (T : Type) := {
  mfconn_api_folder_delete : T -> string -> Z * T;
  mfconn_api_file_delete : T -> string -> Z * T
}.

Arguments mfconn_api_folder_delete {T}.
Arguments mfconn_api_file_delete {T}.

Section Removal.

Context {T : Type} (X : externals T) (D : deletions T).

Notation "'let*' p ':=' m 'in' k" :=
  (bind m (fun x => match x with p => k end))
  (at level 10, p pattern, m at level 100, k at level 200, only parsing).
Notation "'do' m ';' k" := (bind m (fun _ => k))
  (at level 10, m at level 100, k at level 200, only parsing).

Definition mfconn_api_folder_deleteM (key : string) : M T Z :=
  fun w =>
    let '(retval, b) := mfconn_api_folder_delete D (backend w) key in
    Ret retval (set_backend b w).

Definition mfconn_api_file_deleteM (key : string) : M T Z :=
  fun w =>
    let '(retval, b) := mfconn_api_file_delete D (backend w) key in
    Ret retval (set_backend b w).

Definition mediafirefs_rmdir (path : string) : M T Z :=
  let* key := folder_tree_path_get_keyM X path in
  match key with
  | None => ret (- ENOENT)
  | Some key =>
    let* retval := mfconn_api_folder_deleteM key in
    if negb (retval =? 0) then ret (- EAGAIN)
    else
      (* retrieve remote changes to not get out of sync *)
      do folder_tree_updateM X true ; ret 0
  end.

Definition mediafirefs_unlink (path : string) : M T Z :=
  let* key := folder_tree_path_get_keyM X path in
  match key with
  | None => ret (- ENOENT)
  | Some key =>
    let* retval := mfconn_api_file_deleteM key in
    if negb (retval =? 0) then ret (- EAGAIN)
    else
      (* retrieve remote changes to not get out of sync *)
      do folder_tree_updateM X true ; ret 0
  end.

End Removal.

(** ** A reference backend *)

Module Reference.

(** An upload the remote has accepted and not yet finished. *)
Record upload := {
  up_left : nat;                 (* polls until it reports status 99 *)
  up_parent : option string;
  up_name : string;
  up_content : list byte
}.

(** Modelled from the spec: the state behind [ctx->tree] and [ctx->conn],
    that is the folder tree of [fuse/hashtbl.c], the connection and the
    remote account, none of which is among the embedded sources.  The
    catalog is a flat table; a file is addressed by the key of its parent
    folder and its name, and [None] as well as ["myfiles"] designate the
    account root. *)
Record state := {
  folders : gmap string string;                         (* catalog: folder path to folder-key *)
  catalog : gmap (option string * string) Z;            (* catalog: the files known, with their size *)
  remote : gmap (option string * string) (list byte);   (* remote store: content of each file *)
  staging : gmap string nat;                            (* staging file of a path *)
  uploads : gmap string upload;                         (* uploads in progress, by upload-key *)
  online : bool;                                        (* the transport works *)
  staging_ok : bool;                                    (* the staging directory is writable *)
  latency : nat;                                        (* polls a new upload takes *)
  requests : list string                                (* URLs fetched so far *)
}.

Definition set_catalog (c : gmap (option string * string) Z) (b : state) : state :=
  {| folders := folders b; catalog := c; remote := remote b; staging := staging b;
     uploads := uploads b; online := online b; staging_ok := staging_ok b;
     latency := latency b; requests := requests b |}.
Definition set_remote (r : gmap (option string * string) (list byte)) (b : state) : state :=
  {| folders := folders b; catalog := catalog b; remote := r; staging := staging b;
     uploads := uploads b; online := online b; staging_ok := staging_ok b;
     latency := latency b; requests := requests b |}.
Definition set_staging (s : gmap string nat) (b : state) : state :=
  {| folders := folders b; catalog := catalog b; remote := remote b; staging := s;
     uploads := uploads b; online := online b; staging_ok := staging_ok b;
     latency := latency b; requests := requests b |}.
Definition set_uploads (u : gmap string upload) (b : state) : state :=
  {| folders := folders b; catalog := catalog b; remote := remote b; staging := staging b;
     uploads := u; online := online b; staging_ok := staging_ok b;
     latency := latency b; requests := requests b |}.
Definition set_requests (r : list string) (b : state) : state :=
  {| folders := folders b; catalog := catalog b; remote := remote b; staging := staging b;
     uploads := uploads b; online := online b; staging_ok := staging_ok b;
     latency := latency b; requests := r |}.

(** Modelled from the spec: the parent-key convention of the remote client;
    a nil key and ["myfiles"] both designate the account root. *)
Definition root_or (k : option string) : option string :=
  match k with
  | Some s => if String.eqb s "myfiles" then None else Some s
  | None => None
  end.

(** Modelled from the spec: path resolution for a file, which is missing
    with [fuse/hashtbl.c]: the folder part resolves to a folder-key and the
    last component names a file in that folder. *)
Definition file_key (b : state) (path : string) : option (option string * string) :=
  match folders b !! dirname path with
  | Some k => Some (root_or (Some k), basename path)
  | None => None
  end.

(** The lowest descriptor that is not open, and an unused inode. *)
Definition lowest_free (m : gmap Z nat) : Z :=
  default (Z.of_nat (size m))
    (head (filter (fun z => m !! z = None) (Z.of_nat <$> seq 0 (S (size m))))).

Definition unused_inode (m : gmap nat (list byte)) : nat :=
  default (size m)
    (head (filter (fun i => m !! i = None) (seq 0 (S (size m))))).

Definition open_inode (fs : fs_state) (i : nat) : Z * fs_state :=
  let fd := lowest_free (fdt fs) in
  (fd, {| inodes := inodes fs; fdt := <[fd := i]> (fdt fs) |}).

Definition put_inode (fs : fs_state) (i : nat) (content : list byte) : fs_state :=
  {| inodes := <[i := content]> (inodes fs); fdt := fdt fs |}.

(** Modelled from the spec: [folder_tree_update], missing with
    [fuse/hashtbl.c].  After an update the catalog shows what the remote
    holds; no debouncing is modelled, so a non-forced update pulls as
    well. *)
Definition update (b : state) (force : bool) : state :=
  if online b
  then set_catalog ((fun c => Z.of_nat (length c)) <$> remote b) b
  else b.

Definition folder_stat (uid gid : Z) : stat :=
  {| st_mode := Z.lor S_IFDIR perm_0755; st_nlink := 1; st_uid := uid;
     st_gid := gid; st_size := 0; st_atime := 0; st_mtime := 0; st_ctime := 0 |}.

Definition file_stat (uid gid size : Z) : stat :=
  {| st_mode := Z.lor S_IFREG perm_0644; st_nlink := 1; st_uid := uid;
     st_gid := gid; st_size := size; st_atime := 0; st_mtime := 0; st_ctime := 0 |}.

(** Modelled from the spec: [folder_tree_getattr], missing with
    [fuse/hashtbl.c]: folders report [S_IFDIR | 0755], files
    [S_IFREG | 0644], a path that does not resolve reports not found. *)
Definition getattr (uid gid : Z) (b : state) (path : string) (stbuf : stat)
  : Z * stat * state :=
  match folders b !! path with
  | Some _ => (0, folder_stat uid gid, b)
  | None =>
    match file_key b path with
    | Some k =>
      match catalog b !! k with
      | Some size => (0, file_stat uid gid size, b)
      | None => (- ENOENT, stbuf, b)
      end
    | None => (- ENOENT, stbuf, b)
    end
  end.

(** Modelled from the spec: [folder_tree_path_get_key], missing with
    [fuse/hashtbl.c]: resolves folder paths only. *)
Definition path_get_key (b : state) (path : string) : option string * state :=
  (folders b !! path, b).

(** Modelled from the spec: [folder_tree_tmp_open], missing with
    [fuse/hashtbl.c]: a fresh empty staging file and a descriptor to it. *)
Definition tmp_open (b : state) (fs : fs_state) : Z * state * fs_state :=
  if staging_ok b then
    let i := unused_inode (inodes fs) in
    let '(fd, fs') := open_inode (put_inode fs i []) i in
    (fd, b, fs')
  else (-1, b, fs).

(** Modelled from the spec: [folder_tree_open_file], missing with
    [fuse/hashtbl.c].  With [may_refresh] the current content is fetched
    from the remote into the staging file of the path; without it the
    existing staging file is reused.  Not found when the path does not
    resolve, access denied when the remote refuses the download. *)
Definition open_file (b : state) (fs : fs_state) (path : string) (flags : Z)
    (may_refresh : bool) : Z * state * fs_state :=
  match file_key b path with
  | None => (- ENOENT, b, fs)
  | Some k =>
    match catalog b !! k with
    | None => (- ENOENT, b, fs)
    | Some _ =>
      if may_refresh then
        match (if online b then remote b !! k else None) with
        | None => (- EACCES, b, fs)
        | Some content =>
          let i := default (unused_inode (inodes fs)) (staging b !! path) in
          let '(fd, fs') := open_inode (put_inode fs i content) i in
          (fd, set_staging (<[path := i]> (staging b)) b, fs')
        end
      else
        match staging b !! path with
        | None => (- ENOENT, b, fs)
        | Some i => let '(fd, fs') := open_inode fs i in (fd, b, fs')
        end
    end
  end.

(** Modelled from the spec: [folder_tree_upload_patch], missing with
    [fuse/hashtbl.c]: nothing is sent when the staged content is what the
    remote holds, otherwise the staged bytes become the content of the file
    at the path. *)
Definition upload_patch (b : state) (fs : fs_state) (path : string) : Z * state :=
  match file_key b path, staging b !! path with
  | Some k, Some i =>
    let content := default [] (inodes fs !! i) in
    if bool_decide (remote b !! k = Some content) then (0, b)
    else if online b then (0, set_remote (<[k := content]> (remote b)) b)
    else (-1, b)
  | _, _ => (-1, b)
  end.

(** Modelled from the spec: [mfconn_api_upload_simple], missing with
    [mfapi/apicalls]: the remote takes the bytes and hands out an
    upload-key. *)
Definition upload_simple (b : state) (folder_key : option string)
    (content : list byte) (file_name : string) : Z * option string * state :=
  if online b then
    let key := "upload-" +:+ pretty (size (uploads b)) in
    let u := {| up_left := latency b; up_parent := root_or folder_key;
                up_name := file_name; up_content := content |} in
    (0, Some key, set_uploads (<[key := u]> (uploads b)) b)
  else (-1, None, b).

(** Modelled from the spec: [mfconn_api_upload_poll_upload], missing with
    [mfapi/apicalls]: status 99 is terminal success, and with it the file is
    part of the remote store. *)
Definition upload_poll (b : state) (upload_key : string) : Z * Z * Z * state :=
  match (if online b then uploads b !! upload_key else None) with
  | None => (-1, 0, 0, b)
  | Some u =>
    match up_left u with
    | O =>
      (0, 99, 0,
       set_uploads (delete upload_key (uploads b))
         (set_remote (<[(up_parent u, up_name u) := up_content u]> (remote b)) b))
    | S n =>
      let u' := {| up_left := n; up_parent := up_parent u; up_name := up_name u;
                   up_content := up_content u |} in
      (0, 2, 0, set_uploads (<[upload_key := u']> (uploads b)) b)
    end
  end.

(** Modelled from the spec: [mfconn_create_signed_get] and [http_get_buf],
    missing with [mfapi/mfconn.c] and [utils/http.c]: the call is turned
    into a URL, and fetching it succeeds when the transport works. *)
Definition signed_get (b : state) (ssl : Z) (api : string) (args : string)
  : option string * state :=
  (Some ("http://www.mediafire.com/api/" +:+ api +:+ args), b).

Definition get_buf (b : state) (url : option string) : Z * state :=
  match url with
  | Some u => if online b then (0, set_requests (requests b ++ [u]) b) else (-1, b)
  | None => (-1, b)
  end.

Definition ops (uid gid : Z) : externals state :=
  {| folder_tree_update := update;
     folder_tree_getattr := getattr uid gid;
     folder_tree_path_get_key := path_get_key;
     folder_tree_open_file := open_file;
     folder_tree_tmp_open := tmp_open;
     folder_tree_upload_patch := upload_patch;
     mfconn_api_upload_simple := upload_simple;
     mfconn_api_upload_poll_upload := upload_poll;
     mfconn_create_signed_get := signed_get;
     http_get_buf := get_buf;
     geteuid := uid;
     getegid := gid |}.

End Reference.

(** ** Observing a result *)

Definition returned {T A} (r : result T A) : option A :=
  match r with
  | Ret a _ => Some a
  | _ => None
  end.

Definition final {T A} (r : result T A) : option (world T) :=
  match r with
  | Ret _ w => Some w
  | _ => None
  end.

(** The state a callback leaves behind, for chaining concrete runs (the
    state is kept when the callback does not return). *)
Definition after {T A} (w : world T) (r : result T A) : world T :=
  match r with
  | Ret _ w' => w'
  | _ => w
  end.

(** ** The fallback of [mediafirefs_getattr] *)

(** The record [mediafirefs_getattr] makes up for a path it does not find
    in the catalog. *)
Definition synthetic_stat {T} (X : externals T) : stat :=
  {| st_mode := Z.lor S_IFREG perm_0666; st_nlink := 1;
     st_uid := geteuid X; st_gid := getegid X; st_size := 0;
     st_atime := 0; st_mtime := 0; st_ctime := 0 |}.

(** The return value of the catalog lookup [mediafirefs_getattr] makes: the
    tree is updated (not forced) and then asked for the attributes. *)
Definition catalog_lookup {T} (X : externals T) (w : world T) (path : string)
    (stbuf : stat) : Z :=
  fst (fst (folder_tree_getattr X (folder_tree_update X (backend w) false) path stbuf)).

(** ** The open census *)

(** The predicate of the specification on the two multisets, for one path:
    at most one writable handle, and never a writable and a read-only handle
    together. *)
Definition census_ok {T} (w : world T) (P : string) : Prop :=
  (stringv_count (sv_writefiles w) P <= 1)%nat
  /\ ((0 < stringv_count (sv_writefiles w) P)%nat -> stringv_count (sv_readonlyfiles w) P = 0%nat)
  /\ ((0 < stringv_count (sv_readonlyfiles w) P)%nat -> stringv_count (sv_writefiles w) P = 0%nat).

(** The requests of the open-handle manager. *)
Inductive request :=
| ReqOpen (path : string) (file_info : fuse_file_info)
| ReqCreate (path : string) (mode : Z) (file_info : fuse_file_info)
| ReqRelease (fuel : nat) (path : string) (file_info : fuse_file_info).

(** The state after a request that returned. *)
Definition handle {T} (X : externals T) (rq : request) (w : world T) : option (world T) :=
  match rq with
  | ReqOpen path file_info => final (mediafirefs_open X path file_info w)
  | ReqCreate path mode file_info => final (mediafirefs_create X path mode file_info w)
  | ReqRelease fuel path file_info => final (mediafirefs_release X fuel path file_info w)
  end.

(** What the code needs of the state for a request to keep [census_ok]: a
    read-only open needs no writable handle on the path, a writable open needs
    no read-only handle on it (a writable one is rejected by the callback
    itself), a create needs no handle on it at all. *)
Definition admissible {T} (rq : request) (w : world T) : bool :=
  match rq with
  | ReqOpen path file_info =>
    if accmode file_info =? O_RDONLY
    then negb (stringv_mem (sv_writefiles w) path)
    else negb (stringv_mem (sv_readonlyfiles w) path)
  | ReqCreate path _ _ =>
    negb (stringv_mem (sv_writefiles w) path)
    && negb (stringv_mem (sv_readonlyfiles w) path)
  | ReqRelease _ _ _ => true
  end.

(** ** Notions used in the properties of the remaining code *)

(** The flag [mediafirefs_open] hands to [folder_tree_open_file]: refresh
    only when the path has no open handle of either class. *)
Definition refresh_flag {T} (w : world T) (path : string) : bool :=
  negb (stringv_mem (sv_readonlyfiles w) path || stringv_mem (sv_writefiles w) path).

(** The state after [folder_tree_open_file] has been called and has left
    backend [b] and staged files [f]. *)
Definition opened {T} (w : world T) (path : string) (flags : Z) (b : T)
    (f : fs_state) : world T :=
  set_fs f (set_backend b (log (CallTreeOpenFile path flags (refresh_flag w path)) w)).

(** The arguments of the folder-create call for a parent and a name: no
    [parent_key] for a NULL parent and for ["myfiles"]. *)
Definition folder_create_args (parent : option string) (name : string) : string :=
  match parent with
  | Some p =>
    if strcmp_eq p "myfiles"
    then "?foldername=" +:+ cstr name +:+ "&response_format=json"
    else "?parent_key=" +:+ cstr p +:+ "&foldername=" +:+ cstr name
           +:+ "&response_format=json"
  | None => "?foldername=" +:+ cstr name +:+ "&response_format=json"
  end.

(** A text without ['/']. *)
Definition no_slash (s : string) : Prop := slash ∉ list_ascii_of_string s.

(** A directory and a name joined by exactly one slash. *)
Definition download_path (dir name : string) : string :=
  (if ends_with slash dir then drop_last dir else dir) +:+ "/" +:+ name.

(** ** Concrete states *)

Module Examples.

Import Reference.

Definition hello : list byte := list_byte_of_string "hello".

(** An account with one folder [/docs] and one file [/f] holding ["hello"]. *)
Definition account : state :=
  {| folders := <["/" := "myfiles"]> (<["/docs" := "dcs45678901"]> ∅);
     catalog := <[(None, "f") := 5]> ∅;
     remote := <[(None, "f") := hello]> ∅;
     staging := ∅; uploads := ∅; online := true; staging_ok := true;
     latency := 2; requests := [] |}.

(** The freshly mounted file system: nothing is open. *)
Definition mounted : world state :=
  {| backend := account; sv_writefiles := []; sv_readonlyfiles := [];
     fs := {| inodes := ∅; fdt := ∅ |}; heap := ∅; calls := [] |}.

Definition X : externals state := ops 1000 1000.

Definition info (fl : Z) : fuse_file_info := {| flags := fl; fh := 0 |}.

Definition stbuf0 : stat :=
  {| st_mode := 0; st_nlink := 0; st_uid := 0; st_gid := 0; st_size := 0;
     st_atime := 0; st_mtime := 0; st_ctime := 0 |}.

(** [/f] is open read-only once. *)
Definition f_readonly : world state :=
  after mounted (mediafirefs_open X "/f" (info O_RDONLY) mounted).

(** [/f] is open read-write once. *)
Definition f_writable : world state :=
  after mounted (mediafirefs_open X "/f" (info O_RDWR) mounted).

(** [/f] is open read-write, and the file has since been deleted on the
    remote side. *)
Definition f_writable_deleted : world state :=
  set_backend (set_remote ∅ (backend f_writable)) f_writable.

(** [/g] has been created and not yet released. *)
Definition g_created : world state :=
  after mounted (mediafirefs_create X "/g" perm_0644 (info O_WRONLY) mounted).

(** [/g] after ["hey"] has been written to it, after its release, and
    after it has been opened again read-only. *)
Definition hey : list byte := list_byte_of_string "hey".

Definition g_handle : fuse_file_info := {| flags := O_WRONLY; fh := 1 |}.

Definition g_written : world state :=
  after g_created (mediafirefs_write "/g" hey 0 g_handle g_created).

Definition g_released : world state :=
  after g_written (mediafirefs_release X 3 "/g" g_handle g_written).


(** A backend whose upload polls fail: the connection is lost after the
    upload has been accepted. *)
Definition X_poll_down : externals state :=
  {| folder_tree_update := update;
     folder_tree_getattr := getattr 1000 1000;
     folder_tree_path_get_key := path_get_key;
     folder_tree_open_file := open_file;
     folder_tree_tmp_open := tmp_open;
     folder_tree_upload_patch := upload_patch;
     mfconn_api_upload_simple := upload_simple;
     mfconn_api_upload_poll_upload := fun b _ => (-1, 0, 0, b);
     mfconn_create_signed_get := signed_get;
     http_get_buf := get_buf;
     geteuid := 1000;
     getegid := 1000 |}.

End Examples.

(** Further states, a key and a local disk, for the counterexamples and
    for the properties of the remaining code. *)
Module Cases.

Import Reference Examples.

(** A key of [2^32 + 11] characters. *)
Definition long_key : string :=
  string_of_list_ascii (replicate (Z.to_nat 4294967307) "a"%char).









(** [/g] created a second time while the first handle is still open. *)
Definition g_twice : world state :=
  after g_created (mediafirefs_create X "/g" perm_0644 (info O_WRONLY) g_created).

(** The first handle on [/f], read-only. *)
Definition f_handle : fuse_file_info := {| flags := O_RDONLY; fh := 1 |}.

(** The mount after [mkdir /docs/sub]. *)
Definition docs_sub_made : world state :=
  after mounted (mediafirefs_mkdir X "/docs/sub" perm_0755 mounted).

(** The example account with the transport down. *)
Definition offline (b : state) : state :=
  {| folders := folders b; catalog := catalog b; remote := remote b;
     staging := staging b; uploads := uploads b; online := false;
     staging_ok := staging_ok b; latency := latency b; requests := requests b |}.

(** [/g] written and the transport lost before the release. *)
Definition g_written_offline : world state :=
  set_backend (offline (backend g_written)) g_written.

(** [/f] open read-write, overwritten with ["HELLO"], and the transport
    lost before the release. *)
Definition f_handle_rw : fuse_file_info := {| flags := O_RDWR; fh := 1 |}.

Definition f_overwritten_offline : world state :=
  let w := after f_writable
             (mediafirefs_write "/f" (list_byte_of_string "HELLO") 0 f_handle_rw
                f_writable) in
  set_backend (offline (backend w)) w.

(** A file object with key, name and direct link. *)
Definition notes : File.mffile :=
  File.set_direct_link
    (File.set_name File.file_alloc
       (strncpy (memset0 (File.name File.file_alloc) File.sizeof_name) "notes.txt"
          (File.sizeof_name - 1)))
    (Some "http://download.example/notes").

(** A local disk as the list of the files on it with their sizes; a
    transfer that reports failure and still leaves nine bytes. *)
Definition disk : Type := list (string * Z).

Definition get_file (d : disk) (url path : string) : Z * disk :=
  (-1, (path, 9) :: d).

Definition size_of (d : disk) (path : string) : option Z :=
  snd <$> List.find (fun e => String.eqb (fst e) path) d.

End Cases.

(** * Properties *)

(** ** C strings *)

Lemma to_int_small (z : Z) : - 2 ^ 31 <= z <= INT_MAX -> to_int z = z.
Proof.
  unfold to_int, INT_MAX. intros Hz.
  rewrite Z.mod_small by lia. lia.
Qed.

Lemma cstr_idem (s : string) : cstr (cstr s) = cstr s.
Proof.
  induction s as [|c s IH]; simpl; [reflexivity|].
  destruct (Ascii.eqb c Ascii.zero) eqn:E; simpl; [reflexivity|].
  rewrite E, IH. reflexivity.
Qed.

(** A string without a NUL character is the C string it denotes. *)
Lemma cstr_no_nul (s : string) :
  Ascii.zero ∉ list_ascii_of_string s -> cstr s = s.
Proof.
  induction s as [|c s IH]; simpl; intros Hn; [reflexivity|].
  destruct (Ascii.eqb_spec c Ascii.zero) as [->|Hc].
  - exfalso. apply Hn. left.
  - f_equal. apply IH. intros Hin. apply Hn. right. exact Hin.
Qed.

(** Reading a character array stops at the terminator that follows the
    copied text. *)
Lemma string_at_terminated (k : string) (rest : list ascii) :
  string_at (list_ascii_of_string (cstr k) ++ Ascii.zero :: rest) = cstr k.
Proof.
  unfold string_at.
  induction k as [|c k IH]; simpl.
  - reflexivity.
  - destruct (Ascii.eqb c Ascii.zero) eqn:E; simpl.
    + reflexivity.
    + rewrite E. f_equal. exact IH.
Qed.

Lemma length_list_ascii_of_string (s : string) :
  length (list_ascii_of_string s) = String.length s.
Proof. induction s; simpl; congruence. Qed.

(** [strncpy] of a text shorter than [n] into a zeroed array leaves the
    text followed by a terminator. *)
Lemma strncpy_short (dest : list ascii) (k : string) (n : nat) :
  (strlen k < n)%nat ->
  exists rest,
    strncpy dest k n = list_ascii_of_string (cstr k) ++ Ascii.zero :: rest.
Proof.
  intros Hlt. unfold strncpy, strlen in *.
  set (l := list_ascii_of_string (cstr k)).
  assert (Hl : length l = String.length (cstr k))
    by apply length_list_ascii_of_string.
  rewrite take_app_ge by lia.
  rewrite Hl.
  destruct (n - String.length (cstr k))%nat as [|m] eqn:Hm; [lia|].
  rewrite take_replicate.
  replace (S m `min` n)%nat with (S m) by lia. simpl.
  exists (replicate m Ascii.zero ++ drop n dest).
  rewrite <- app_assoc. reflexivity.
Qed.

Section FileKey.

Import File.

Lemma file_set_key_stores (f : mffile) (k : string) :
  (strlen k < sizeof_quickkey - 1)%nat ->
  string_at (strncpy (memset0 (quickkey f) sizeof_quickkey) k (sizeof_quickkey - 1))
  = cstr k.
Proof.
  intros Hlt.
  destruct (strncpy_short (memset0 (quickkey f) sizeof_quickkey) k
              (sizeof_quickkey - 1) Hlt) as [rest ->].
  apply string_at_terminated.
Qed.

(** C8, amended.  For a key of at most [INT_MAX] characters,
    [file_set_key] returns 0 exactly when the file pointer and the key are
    non-NULL and the key is 11 or 15 characters long; after a success
    [file_get_key] returns the given key; a failure returns -1 and leaves
    the object, and with it the stored key, as it was.  The bound is
    needed: the length is kept in an [int] before it is compared. *)
Theorem file_set_key_spec (file : option mffile) (key : option string) :
  (forall k, key = Some k -> Z.of_nat (strlen k) <= INT_MAX) ->
  (fst (file_set_key file key) = 0
   <-> exists f k, file = Some f /\ key = Some k
                   /\ (strlen k = 11%nat \/ strlen k = 15%nat))
  /\ (fst (file_set_key file key) = 0 ->
      exists k r, key = Some k
                /\ file_get_key (snd (file_set_key file key)) = Some r
                /\ r = cstr k /\ strcmp_eq r k = true)
  /\ (fst (file_set_key file key) <> 0 ->
      fst (file_set_key file key) = -1
      /\ snd (file_set_key file key) = file
      /\ file_get_key (snd (file_set_key file key)) = file_get_key file).
Proof.
  intros Hint.
  destruct file as [f|]; [|simpl; repeat split; try lia; try congruence;
                            intros (f & k & Hf & _); discriminate].
  destruct key as [k|]; [|simpl; repeat split; try lia; try congruence;
                           intros (f' & k & _ & Hk & _); discriminate].
  specialize (Hint k eq_refl).
  unfold file_set_key.
  rewrite to_int_small by (unfold INT_MAX in *; lia).
  destruct (Z.eqb_spec (Z.of_nat (strlen k)) 11) as [H11|H11];
    [|destruct (Z.eqb_spec (Z.of_nat (strlen k)) 15) as [H15|H15]]; simpl.
  - assert (Hlen : strlen k = 11%nat) by lia.
    split; [|split].
    + split; [intros _; exists f, k; auto | reflexivity].
    + intros _. exists k, (cstr k). split; [reflexivity|]. split; [|split].
      * f_equal. apply file_set_key_stores. unfold sizeof_quickkey. lia.
      * reflexivity.
      * unfold strcmp_eq. rewrite cstr_idem. apply String.eqb_refl.
    + intros Hne. exfalso. apply Hne. reflexivity.
  - assert (Hlen : strlen k = 15%nat) by lia.
    split; [|split].
    + split; [intros _; exists f, k; auto | reflexivity].
    + intros _. exists k, (cstr k). split; [reflexivity|]. split; [|split].
      * f_equal. apply file_set_key_stores. unfold sizeof_quickkey. lia.
      * reflexivity.
      * unfold strcmp_eq. rewrite cstr_idem. apply String.eqb_refl.
    + intros Hne. exfalso. apply Hne. reflexivity.
  - split; [|split].
    + split; [intros H; discriminate H|].
      intros (f' & k' & _ & Hk & Hlen). injection Hk as <-. lia.
    + intros H; discriminate H.
    + intros _. repeat split.
Qed.

(** The theorem at a zeroed file object and an 11-character key. *)
Lemma file_set_key_spec_witness :
  fst (file_set_key (Some file_alloc) (Some "abcdefghijk")) = 0
  /\ file_get_key (snd (file_set_key (Some file_alloc) (Some "abcdefghijk")))
     = Some "abcdefghijk".
Proof.
  assert (Hint : forall k, Some "abcdefghijk" = Some k -> Z.of_nat (strlen k) <= INT_MAX).
  { intros k Hk. injection Hk as <-. vm_compute. discriminate. }
  destruct (file_set_key_spec (Some file_alloc) (Some "abcdefghijk") Hint)
    as (Hiff & Hget & _).
  split; [reflexivity|].
  destruct (Hget eq_refl) as (k & r & Hk & Hr & -> & _).
  injection Hk as <-. exact Hr.
Defined.

Lemma strlen_replicate (n : nat) (c : ascii) :
  c <> Ascii.zero -> strlen (string_of_list_ascii (replicate n c)) = n.
Proof.
  intros Hc. unfold strlen. induction n as [|n IH]; simpl; [reflexivity|].
  destruct (Ascii.eqb_spec c Ascii.zero) as [Heq|_]; [contradiction|].
  simpl. f_equal. exact IH.
Qed.

(** C8 as stated fails: a key of [2^32 + 11] characters, neither 11 nor 15,
    is accepted, since its length taken as an [int] is 11. *)
Lemma file_set_key_accepts_overlong_key :
  Z.of_nat (strlen Cases.long_key) = 4294967307
  /\ fst (file_set_key (Some file_alloc) (Some Cases.long_key)) = 0.
Proof.
  assert (Hlen : Z.of_nat (strlen Cases.long_key) = 4294967307).
  { unfold Cases.long_key. rewrite strlen_replicate by discriminate.
    apply Z2Nat.id. lia. }
  split; [exact Hlen|].
  unfold file_set_key. rewrite Hlen.
  change (to_int 4294967307) with 11.
  reflexivity.
Qed.

End FileKey.

(** ** The string vector as a multiset *)

Lemma stringv_mem_count (sv : list string) (e : string) :
  stringv_mem sv e = true <-> (0 < stringv_count sv e)%nat.
Proof.
  unfold stringv_mem. rewrite bool_decide_eq_true.
  induction sv as [|x sv IH]; simpl.
  - split; [intros H; inversion H | lia].
  - rewrite elem_of_cons. destruct (decide (x = e)) as [->|Hne].
    + split; [lia | auto].
    + rewrite <- IH. split; [intros [->|H]; [congruence | exact H] | auto].
Qed.

Lemma stringv_not_mem_count (sv : list string) (e : string) :
  stringv_mem sv e = false <-> stringv_count sv e = 0%nat.
Proof.
  destruct (stringv_mem sv e) eqn:E.
  - apply stringv_mem_count in E. split; [discriminate | lia].
  - split; [intros _ | reflexivity].
    destruct (stringv_count sv e) eqn:C; [reflexivity|].
    assert (H : stringv_mem sv e = true) by (apply stringv_mem_count; lia).
    congruence.
Qed.

Lemma stringv_count_add (sv : list string) (e P : string) :
  stringv_count (stringv_add sv e) P
  = (stringv_count sv P + (if decide (e = P) then 1 else 0))%nat.
Proof.
  unfold stringv_add. induction sv as [|x sv IH]; simpl.
  - lia.
  - rewrite IH. lia.
Qed.

(** [stringv_del] removes one entry of the path, and only when it reports
    success. *)
Lemma stringv_count_del (sv : list string) (e P : string) :
  stringv_count (snd (stringv_del sv e)) P
  = if decide (fst (stringv_del sv e) = 0)
    then (stringv_count sv P - (if decide (e = P) then 1 else 0))%nat
    else stringv_count sv P.
Proof.
  induction sv as [|x sv IH]; simpl.
  - reflexivity.
  - destruct (decide (x = e)) as [->|Hne]; simpl.
    + destruct (decide (e = P)); lia.
    + destruct (stringv_del sv e) as [r sv'] eqn:E; simpl in *.
      rewrite IH. destruct (decide (r = 0)); [|reflexivity].
      destruct (decide (x = P)) as [->|]; [|reflexivity].
      destruct (decide (e = P)); [congruence | lia].
Qed.

Lemma stringv_del_found (sv : list string) (e : string) :
  fst (stringv_del sv e) = 0 <-> stringv_mem sv e = true.
Proof.
  rewrite stringv_mem_count.
  induction sv as [|x sv IH]; simpl.
  - split; [discriminate | lia].
  - destruct (decide (x = e)); simpl; [split; [lia | reflexivity]|].
    destruct (stringv_del sv e) as [r sv'] eqn:E; simpl in *. exact IH.
Qed.

(** A path with a single entry: the entry is found and none is left. *)
Lemma stringv_del_single (sv : list string) (e : string) :
  stringv_count sv e = 1%nat ->
  exists sv', stringv_del sv e = (0, sv') /\ stringv_mem sv' e = false.
Proof.
  intros Hcount.
  pose proof (stringv_count_del sv e e) as Hc.
  pose proof (stringv_del_found sv e) as Hf.
  destruct (stringv_del sv e) as [r0 sv'] eqn:Hdel. simpl in Hc, Hf.
  assert (Hr0 : r0 = 0) by (apply Hf; apply stringv_mem_count; lia).
  subst r0. do 2 rewrite decide_True in Hc by reflexivity.
  exists sv'. split; [reflexivity|]. apply stringv_not_mem_count. lia.
Qed.

(** ** The callbacks, case by case *)

(** Unfolds the monad and the calls into the backend. *)
Ltac unfold_monad :=
  unfold bind, ret, get, exit, fault, spin, modify,
    folder_tree_updateM, folder_tree_getattrM, folder_tree_path_get_keyM,
    folder_tree_open_fileM, folder_tree_tmp_openM, folder_tree_upload_patchM,
    mfconn_api_upload_simpleM, mfconn_create_signed_getM, http_get_bufM,
    malloc, free, deref, closeM, fdopen_rewind in *.

Section Callbacks.

Context {T : Type} (X : externals T).

(** C1 (amended).  An open in a mode other than read-only on a path that
    has a writable handle returns [-EACCES] and leaves the whole state,
    the two multisets included, as it was. *)
Theorem open_writable_denied_when_writable (w : world T) (path : string)
    (file_info : fuse_file_info) :
  accmode file_info <> O_RDONLY ->
  stringv_mem (sv_writefiles w) path = true ->
  mediafirefs_open X path file_info w = Ret (- EACCES, file_info) w.
Proof.
  intros Hmode Hmem. unfold mediafirefs_open. unfold_monad.
  rewrite Hmem. destruct (Z.eqb_spec (accmode file_info) O_RDONLY); [contradiction|].
  reflexivity.
Qed.

(** What an open that returns does to the two multisets. *)
Lemma open_census (w w' : world T) (path : string) (file_info : fuse_file_info) :
  final (mediafirefs_open X path file_info w) = Some w' ->
  (sv_writefiles w' = sv_writefiles w /\ sv_readonlyfiles w' = sv_readonlyfiles w)
  \/ (accmode file_info = O_RDONLY
      /\ sv_writefiles w' = sv_writefiles w
      /\ sv_readonlyfiles w' = stringv_add (sv_readonlyfiles w) path)
  \/ (accmode file_info <> O_RDONLY
      /\ stringv_mem (sv_writefiles w) path = false
      /\ sv_writefiles w' = stringv_add (sv_writefiles w) path
      /\ sv_readonlyfiles w' = sv_readonlyfiles w).
Proof.
  unfold mediafirefs_open. unfold_monad.
  destruct (Z.eqb_spec (accmode file_info) O_RDONLY) as [Hm|Hm]; simpl.
  - destruct (folder_tree_open_file X _ _ _ _ _) as [[fd b] f]; simpl.
    destruct (fd <? 0); simpl; intros H; injection H as <-; simpl; auto.
  - destruct (stringv_mem (sv_writefiles w) path) eqn:Hmem; simpl.
    + intros H; injection H as <-. auto.
    + destruct (folder_tree_open_file X _ _ _ _ _) as [[fd b] f]; simpl.
      destruct (fd <? 0); simpl; intros H; injection H as <-; simpl; auto.
      right. right. auto.
Qed.

Lemma create_census (w w' : world T) (path : string) (mode : Z)
    (file_info : fuse_file_info) :
  final (mediafirefs_create X path mode file_info w) = Some w' ->
  (sv_writefiles w' = sv_writefiles w \/ sv_writefiles w' = stringv_add (sv_writefiles w) path)
  /\ sv_readonlyfiles w' = sv_readonlyfiles w.
Proof.
  unfold mediafirefs_create. unfold_monad.
  destruct (folder_tree_tmp_open X _ _) as [[fd b] f]; simpl.
  destruct (fd <? 0); simpl; intros H; injection H as <-; simpl; auto.
Qed.

(** The polling loop touches nothing but the backend and the call log. *)
Lemma poll_frame (fuel : nat) (upload_key : string) (w w' : world T) (r : option Z) :
  poll_for_completion X fuel upload_key w = Ret r w' ->
  sv_writefiles w' = sv_writefiles w
  /\ sv_readonlyfiles w' = sv_readonlyfiles w
  /\ fs w' = fs w /\ heap w' = heap w.
Proof.
  revert w. induction fuel as [|fuel IH]; intros w; simpl.
  - discriminate.
  - unfold bind, mfconn_api_upload_poll_uploadM.
    destruct (mfconn_api_upload_poll_upload X _ _) as [[[retval status] fe] b]; simpl.
    destruct (retval =? 0); simpl.
    + destruct (status =? 99); simpl.
      * intros H; injection H as <- <-. auto.
      * intros H. apply IH in H. simpl in H. exact H.
    + intros H; injection H as <- <-. auto.
Qed.

(** What a release that returns has done: the entry of the handle's path
    is gone from the multiset of its class, the descriptor is closed and
    the open-file structure is freed, whatever value is returned. *)
Lemma release_effect (fuel : nat) (p : string) (file_info : fuse_file_info)
    (w w' : world T) (r : Z) :
  mediafirefs_release X fuel p file_info w = Ret r w' ->
  exists o,
    heap w !! fh file_info = Some o
    /\ heap w' = delete (fh file_info) (heap w)
    /\ fs w' = close (fs w) (fd o)
    /\ (if is_readonly o
        then fst (stringv_del (sv_readonlyfiles w) (path o)) = 0
             /\ sv_readonlyfiles w' = snd (stringv_del (sv_readonlyfiles w) (path o))
             /\ sv_writefiles w' = sv_writefiles w
        else fst (stringv_del (sv_writefiles w) (path o)) = 0
             /\ sv_writefiles w' = snd (stringv_del (sv_writefiles w) (path o))
             /\ stringv_mem (sv_writefiles w') (path o) = false
             /\ sv_readonlyfiles w' = sv_readonlyfiles w).
Proof.
  unfold mediafirefs_release. unfold_monad.
  destruct (heap w !! fh file_info) as [o|] eqn:Ho; [|discriminate].
  intros H. exists o. split; [reflexivity|].
  destruct (is_readonly o) eqn:Hro.
  - destruct (stringv_del (sv_readonlyfiles w) (path o)) as [r0 sv] eqn:Hdel.
    destruct (Z.eqb_spec r0 0) as [->|Hr0]; simpl in H; [|discriminate].
    injection H as <- <-. simpl. auto.
  - destruct (stringv_del (sv_writefiles w) (path o)) as [r0 sv] eqn:Hdel.
    destruct (Z.eqb_spec r0 0) as [->|Hr0]; simpl in H; [|discriminate].
    destruct (stringv_mem sv (path o)) eqn:Hmem; [discriminate|].
    destruct (is_local o) eqn:Hlocal; simpl in H.
    + destruct (file_content (fs w) (fd o)) as [content|]; [|discriminate].
      simpl in H.
      destruct (folder_tree_path_get_key X _ _) as [key b1]; simpl in H.
      destruct (mfconn_api_upload_simple X _ _ _ _) as [[retval ukey] b2]; simpl in H.
      destruct ukey as [ukey|]; [|injection H as <- <-; simpl; auto 10].
      destruct (retval =? 0); simpl in H; [|injection H as <- <-; simpl; auto 10].
      match type of H with
      | context [poll_for_completion X fuel ukey ?w0] =>
        destruct (poll_for_completion X fuel ukey w0) as [[v|] w1| | |] eqn:Hpoll;
          try discriminate; apply poll_frame in Hpoll; simpl in Hpoll;
          destruct Hpoll as (Hw & Hr & Hf & Hh)
      end.
      * injection H as <- <-. rewrite Hw, Hr, Hf, Hh. simpl. auto 10.
      * injection H as <- <-. simpl. rewrite Hw, Hr, Hf, Hh. simpl. auto 10.
    + simpl in H.
      destruct (folder_tree_upload_patch X _ _ _) as [retval b1]; simpl in H.
      destruct (retval =? 0); simpl in H; injection H as <- <-; simpl; auto 10.
Qed.

(** C2 (amended).  The census predicate holds when both multisets are
    empty, and every request that returns keeps it for every path, provided
    the request is admissible: any release; a read-only open of a path
    without writable handle; a writable open of a path without read-only
    handle; a create of a path without handle. *)
Theorem census_preserved :
  (forall (w : world T) (P : string),
      sv_writefiles w = [] -> sv_readonlyfiles w = [] -> census_ok w P)
  /\ (forall (rq : request) (w w' : world T) (P : string),
         handle X rq w = Some w' ->
         admissible rq w = true ->
         census_ok w P -> census_ok w' P).
Proof.
  split.
  - intros w P Hw Hr. unfold census_ok. rewrite Hw, Hr. simpl. lia.
  - intros rq w w' P Hrun Hadm (Hle & Hwr & Hrw). unfold census_ok.
    destruct rq as [path fi | path mode fi | fuel path fi]; simpl in Hrun, Hadm.
    + apply open_census in Hrun.
      destruct Hrun as [(-> & ->) | [(Hm & -> & ->) | (Hm & Hmem & -> & ->)]].
      * auto.
      * rewrite Hm in Hadm. simpl in Hadm. apply negb_true_iff in Hadm.
        apply stringv_not_mem_count in Hadm.
        rewrite stringv_count_add.
        destruct (decide (path = P)) as [->|]; [|rewrite Nat.add_0_r; auto].
        repeat split; [lia | lia | intros _; exact Hadm].
      * destruct (Z.eqb_spec (accmode fi) O_RDONLY); [contradiction|].
        apply negb_true_iff in Hadm.
        apply stringv_not_mem_count in Hadm, Hmem.
        rewrite stringv_count_add.
        destruct (decide (path = P)) as [->|]; [|rewrite Nat.add_0_r; auto].
        repeat split; [lia | intros _; exact Hadm | lia].
    + apply andb_true_iff in Hadm. destruct Hadm as [Hnw Hnr].
      apply negb_true_iff in Hnw, Hnr.
      apply stringv_not_mem_count in Hnw, Hnr.
      apply create_census in Hrun. destruct Hrun as [[-> | ->] ->]; [auto|].
      rewrite stringv_count_add.
      destruct (decide (path = P)) as [->|]; [|rewrite Nat.add_0_r; auto].
      repeat split; [lia | intros _; exact Hnr | lia].
    + destruct (mediafirefs_release X fuel path fi w) as [r w1| | |] eqn:Hrel;
        try discriminate.
      injection Hrun as ->.
      apply release_effect in Hrel. destruct Hrel as (o & _ & _ & _ & Hsv).
      destruct (is_readonly o).
      * destruct Hsv as (Hdel & -> & ->).
        rewrite stringv_count_del. rewrite decide_True by exact Hdel.
        repeat split; [lia | intros H; specialize (Hwr H); lia | intros H; apply Hrw; lia].
      * destruct Hsv as (Hdel & -> & _ & ->).
        rewrite stringv_count_del. rewrite decide_True by exact Hdel.
        repeat split; [lia | intros H; apply Hwr; lia | intros H; specialize (Hrw H); lia].
Qed.

(** The bound on writable handles alone is kept by every open, with no
    condition on the state: this is the check the callback makes. *)
Lemma open_keeps_single_writer (w w' : world T) (path : string)
    (file_info : fuse_file_info) (P : string) :
  final (mediafirefs_open X path file_info w) = Some w' ->
  (stringv_count (sv_writefiles w) P <= 1)%nat ->
  (stringv_count (sv_writefiles w') P <= 1)%nat.
Proof.
  intros Hrun Hle. apply open_census in Hrun.
  destruct Hrun as [(-> & _) | [(_ & -> & _) | (_ & Hmem & -> & _)]]; auto.
  apply stringv_not_mem_count in Hmem. rewrite stringv_count_add.
  destruct (decide (path = P)) as [->|]; lia.
Qed.

Lemma getattr_fallback (w : world T) (path : string) (stbuf : stat) :
  stringv_mem (sv_writefiles w) path = true ->
  catalog_lookup X w path stbuf <> 0 ->
  returned (mediafirefs_getattr X path stbuf w) = Some (0, synthetic_stat X).
Proof.
  unfold catalog_lookup, mediafirefs_getattr. unfold_monad. simpl.
  intros Hmem Hfail.
  destruct (folder_tree_getattr X _ _ _) as [[retval st] b]; simpl in *.
  rewrite Hmem. destruct (Z.eqb_spec retval 0); [contradiction|]. reflexivity.
Qed.

(** C4 (amended).  For a path that is in the writable multiset and whose
    catalog lookup fails, [mediafirefs_getattr] returns 0 and a record with
    size 0, link count 1, mode [S_IFREG | 0666], and the effective uid and
    gid of the process. *)
Theorem getattr_synthetic_record (w : world T) (path : string) (stbuf : stat) :
  stringv_mem (sv_writefiles w) path = true ->
  catalog_lookup X w path stbuf <> 0 ->
  exists st,
    returned (mediafirefs_getattr X path stbuf w) = Some (0, st)
    /\ st_size st = 0 /\ st_nlink st = 1
    /\ st_mode st = Z.lor S_IFREG perm_0666
    /\ st_uid st = geteuid X /\ st_gid st = getegid X.
Proof.
  intros Hmem Hfail. exists (synthetic_stat X).
  split; [apply getattr_fallback; assumption|]. repeat split.
Qed.

(** C9.  The fallback does not look at the handle: for a writable handle of
    either kind on the path (created locally or opened on an existing
    file), whatever its staged file holds, a failing catalog lookup makes
    [mediafirefs_getattr] return the made-up record, whose size is 0. *)
Theorem getattr_fallback_ignores_handle (w : world T) (path0 : string)
    (stbuf : stat) (p : Z) (o : mediafirefs_openfile) (content : list byte) :
  heap w !! p = Some o ->
  path o = path0 ->
  is_readonly o = false ->
  file_content (fs w) (fd o) = Some content ->
  stringv_mem (sv_writefiles w) path0 = true ->
  catalog_lookup X w path0 stbuf <> 0 ->
  forall local : bool, is_local o = local ->
    returned (mediafirefs_getattr X path0 stbuf w) = Some (0, synthetic_stat X)
    /\ st_size (synthetic_stat X) = 0.
Proof.
  intros _ _ _ _ Hmem Hfail local _.
  split; [apply getattr_fallback; assumption | reflexivity].
Qed.

(** C10.  The mode handed to [mediafirefs_create] and to
    [mediafirefs_mkdir] has no influence: return value, handle, state and
    calls made are the same for any two modes. *)
Theorem mode_is_ignored (path : string) (mode1 mode2 : Z)
    (file_info : fuse_file_info) (w : world T) :
  mediafirefs_create X path mode1 file_info w
  = mediafirefs_create X path mode2 file_info w
  /\ mediafirefs_mkdir X path mode1 w = mediafirefs_mkdir X path mode2 w.
Proof. split; reflexivity. Qed.

(** C7.  [mfconn_api_folder_create] with parent ["myfiles"] does what it
    does with a NULL parent, for every connection pointer and name; for a
    connection and a non-empty name this is one signed call without
    [parent_key], followed by the request. *)
Theorem folder_create_myfiles_is_root (w : world T) :
  (forall (mfconn : mfconn_ptr) (name : option string),
      mfconn_api_folder_create X mfconn (Some "myfiles") name w
      = mfconn_api_folder_create X mfconn None name w)
  /\ (forall name : string,
         (1 <= strlen name)%nat ->
         exists retval url w',
           mfconn_api_folder_create X mfconn_of_ctx (Some "myfiles") (Some name) w
           = Ret retval w'
           /\ calls w'
              = calls w
                  ++ [CallSignedGet 0 "folder/create.php"
                        ("?foldername=" +:+ cstr name +:+ "&response_format=json");
                      CallHttpGetBuf url]).
Proof.
  split.
  - intros mfconn name. reflexivity.
  - intros name Hlen. unfold mfconn_api_folder_create.
    destruct (Nat.ltb_spec (strlen name) 1) as [Hlt|_]; [lia|].
    change (negb (strlen "myfiles" =? 13)%nat) with true.
    change (strcmp_eq "myfiles" "myfiles") with true.
    cbv iota. unfold_monad.
    destruct (mfconn_create_signed_get X _ _ _ _) as [url b1]; simpl.
    destruct (http_get_buf X _ _) as [retval b2]; simpl.
    eexists retval, url, _. split; [reflexivity|].
    simpl. rewrite <- app_assoc. reflexivity.
Qed.

(** Where the parent of the new directory does not resolve, the NULL key is
    handed on to [mfconn_api_folder_create]: the remote is asked to create
    the folder in the account root, and the result is 0 or [-EAGAIN]. *)
Lemma mkdir_unresolved_parent (w : world T) (path : string) (mode : Z)
    (d b : string) (b1 : T) :
  path <> EmptyString ->
  strrchr_split slash (if ends_with slash path then drop_last path else path)
  = Some (d, b) ->
  d <> EmptyString ->
  (1 <= strlen b)%nat ->
  folder_tree_path_get_key X (backend w) d = (None, b1) ->
  exists r url w' rest,
    mediafirefs_mkdir X path mode w = Ret r w'
    /\ (r = 0 \/ r = - EAGAIN)
    /\ calls w'
       = calls w
           ++ [CallTreePathGetKey d;
               CallSignedGet 0 "folder/create.php"
                 ("?foldername=" +:+ cstr b +:+ "&response_format=json");
               CallHttpGetBuf url] ++ rest.
Proof.
  intros Hpath Hsplit Hd Hb Hkey. unfold mediafirefs_mkdir.
  destruct path as [|c path']; [contradiction|].
  rewrite Hsplit. destruct d as [|c' d']; [contradiction|].
  unfold mfconn_api_folder_create.
  destruct (Nat.ltb_spec (strlen b) 1) as [Hlt|_]; [lia|].
  unfold_monad. rewrite Hkey. simpl.
  destruct (mfconn_create_signed_get X _ _ _ _) as [url b2]; simpl.
  destruct (http_get_buf X _ _) as [retval b3]; simpl.
  destruct (retval =? 0); simpl.
  - eexists 0, url, _, [CallTreeUpdate true]. split; [reflexivity|].
    split; [left; reflexivity|]. simpl.
    repeat rewrite <- app_assoc. reflexivity.
  - eexists (- EAGAIN), url, _, []. split; [reflexivity|].
    split; [right; reflexivity|]. simpl.
    repeat rewrite <- app_assoc. reflexivity.
Qed.

(** The return value of a release whose upload is accepted and whose first
    poll fails.  The entry, the descriptor and the structure are released
    as on the other paths ([release_effect]). *)
Lemma release_poll_failure (fuel : nat) (p : string) (file_info : fuse_file_info)
    (w : world T) (o : mediafirefs_openfile) (content : list byte)
    (key : option string) (ukey : string) (b1 b2 b3 : T) (rv st fe : Z) :
  heap w !! fh file_info = Some o ->
  is_readonly o = false ->
  is_local o = true ->
  stringv_count (sv_writefiles w) (path o) = 1%nat ->
  file_content (fs w) (fd o) = Some content ->
  folder_tree_path_get_key X (backend w) (dirname (path o)) = (key, b1) ->
  mfconn_api_upload_simple X b1 key content (basename (path o)) = (0, Some ukey, b2) ->
  mfconn_api_upload_poll_upload X b2 ukey = (rv, st, fe, b3) ->
  rv <> 0 ->
  returned (mediafirefs_release X (S fuel) p file_info w) = Some (-1).
Proof.
  intros Ho Hro Hlocal Hcount Hcontent Hkey Hup Hpoll Hrv.
  unfold mediafirefs_release. unfold_monad.
  rewrite Ho, Hro.
  destruct (stringv_del_single _ _ Hcount) as (sv & Hdel & Hnot).
  rewrite Hdel.
  simpl. rewrite Hnot, Hlocal. simpl. rewrite Hcontent. simpl.
  rewrite Hkey. simpl. rewrite Hup. simpl.
  unfold bind, mfconn_api_upload_poll_uploadM. simpl. rewrite Hpoll. simpl.
  destruct (Z.eqb_spec rv 0); [contradiction|]. reflexivity.
Qed.

(** X27.  The two other failures of a release of a writable handle are
    reported as [-EACCES]: for a handle marked local, a simple upload that
    returns non-zero or hands out no upload key. *)
Lemma release_upload_simple_failure (fuel : nat) (p : string)
    (file_info : fuse_file_info) (w : world T) (o : mediafirefs_openfile)
    (content : list byte) (key ukey : option string) (b1 b2 : T) (rv : Z) :
  heap w !! fh file_info = Some o ->
  is_readonly o = false ->
  is_local o = true ->
  stringv_count (sv_writefiles w) (path o) = 1%nat ->
  file_content (fs w) (fd o) = Some content ->
  folder_tree_path_get_key X (backend w) (dirname (path o)) = (key, b1) ->
  mfconn_api_upload_simple X b1 key content (basename (path o)) = (rv, ukey, b2) ->
  rv <> 0 \/ ukey = None ->
  returned (mediafirefs_release X fuel p file_info w) = Some (- EACCES).
Proof.
  intros Ho Hro Hlocal Hcount Hcontent Hkey Hup Hfail.
  unfold mediafirefs_release. unfold_monad.
  rewrite Ho, Hro.
  destruct (stringv_del_single _ _ Hcount) as (sv & Hdel & Hnot).
  rewrite Hdel.
  simpl. rewrite Hnot, Hlocal. simpl. rewrite Hcontent. simpl.
  rewrite Hkey. simpl. rewrite Hup. simpl.
  destruct ukey as [uk|]; [|reflexivity].
  destruct Hfail as [Hrv|Hnone]; [|discriminate Hnone].
  destruct (Z.eqb_spec rv 0); [contradiction|]. reflexivity.
Qed.

(** X28.  For a writable handle that is not marked local, a patch upload
    that returns non-zero makes the release return [-EACCES]. *)
Lemma release_upload_patch_failure (fuel : nat) (p : string)
    (file_info : fuse_file_info) (w : world T) (o : mediafirefs_openfile)
    (b1 : T) (rv : Z) :
  heap w !! fh file_info = Some o ->
  is_readonly o = false ->
  is_local o = false ->
  stringv_count (sv_writefiles w) (path o) = 1%nat ->
  folder_tree_upload_patch X (backend w) (close (fs w) (fd o)) (path o) = (rv, b1) ->
  rv <> 0 ->
  returned (mediafirefs_release X fuel p file_info w) = Some (- EACCES).
Proof.
  intros Ho Hro Hlocal Hcount Hpatch Hrv.
  unfold mediafirefs_release. unfold_monad.
  rewrite Ho, Hro.
  destruct (stringv_del_single _ _ Hcount) as (sv & Hdel & Hnot).
  rewrite Hdel.
  simpl. rewrite Hnot, Hlocal. simpl. rewrite Hpatch. simpl.
  destruct (Z.eqb_spec rv 0); [contradiction|]. reflexivity.
Qed.

End Callbacks.

(** ** Concrete runs *)

Section Runs.

Import Reference Examples.

(** The amended C1 at [/f] held open read-write: a second read-write open
    is denied and changes nothing. *)
Lemma open_writable_denied_when_writable_witness :
  mediafirefs_open X "/f" (info O_RDWR) f_writable
  = Ret (- EACCES, info O_RDWR) f_writable.
Proof.
  apply open_writable_denied_when_writable.
  - vm_compute. lia.
  - vm_compute. reflexivity.
Defined.

(** C1 as stated fails: with a read-only handle open on [/f] (and no
    writable one) an open of [/f] in read-write mode returns 0, not
    [-EACCES], and adds an entry to the writable multiset. *)
Lemma open_writable_with_readonly_handle_succeeds :
  stringv_mem (sv_readonlyfiles f_readonly) "/f" = true
  /\ sv_writefiles f_readonly = []
  /\ returned (mediafirefs_open X "/f" (info O_RDWR) f_readonly)
     = Some (0, {| flags := O_RDWR; fh := 2 |})
  /\ fst <$> returned (mediafirefs_open X "/f" (info O_RDWR) f_readonly)
     <> Some (- EACCES)
  /\ sv_writefiles <$> final (mediafirefs_open X "/f" (info O_RDWR) f_readonly)
     = Some ["/f"].
Proof.
  repeat split; try (vm_compute; reflexivity).
  vm_compute. intros H. discriminate H.
Qed.

(** The amended C2 at a read-only open of [/f] on the fresh mount. *)
Lemma census_preserved_witness :
  census_ok mounted "/f" /\ census_ok f_readonly "/f".
Proof.
  assert (H0 : census_ok mounted "/f").
  { apply (proj1 (census_preserved X)); reflexivity. }
  split; [exact H0|].
  apply (proj2 (census_preserved X) (ReqOpen "/f" (info O_RDONLY)) mounted).
  - vm_compute. reflexivity.
  - vm_compute. reflexivity.
  - exact H0.
Defined.

(** C2 as stated fails: with [/f] open read-write the predicate holds; a
    read-only open of [/f] then returns 0 and leaves one writable and one
    read-only entry for [/f]. *)
Lemma census_broken_by_readonly_open :
  census_ok f_writable "/f"
  /\ returned (mediafirefs_open X "/f" (info O_RDONLY) f_writable)
     = Some (0, {| flags := O_RDONLY; fh := 2 |})
  /\ match handle X (ReqOpen "/f" (info O_RDONLY)) f_writable with
     | Some w' =>
       stringv_count (sv_writefiles w') "/f" = 1%nat
       /\ stringv_count (sv_readonlyfiles w') "/f" = 1%nat
       /\ ~ census_ok w' "/f"
     | None => False
     end.
Proof.
  split; [|split].
  - unfold census_ok. vm_compute. repeat split; lia.
  - vm_compute. reflexivity.
  - vm_compute. repeat split. intros (_ & H & _).
    specialize (H (le_n 1)). discriminate H.
Qed.

(** The amended C4 at [/g], created and not yet released. *)
Lemma getattr_synthetic_record_witness :
  exists st,
    returned (mediafirefs_getattr X "/g" stbuf0 g_created) = Some (0, st)
    /\ st_size st = 0 /\ st_nlink st = 1
    /\ st_mode st = Z.lor S_IFREG perm_0666
    /\ st_uid st = 1000 /\ st_gid st = 1000.
Proof.
  apply (getattr_synthetic_record X g_created "/g" stbuf0).
  - vm_compute. reflexivity.
  - vm_compute. lia.
Defined.

(** C4 as stated fails: for [/g], which is in the writable multiset and not
    in the catalog, the mode reported is [S_IFREG | 0666] (octal 100666),
    not [S_IFREG | 0644]. *)
Lemma getattr_synthetic_mode_is_0666 :
  stringv_mem (sv_writefiles g_created) "/g" = true
  /\ catalog_lookup X g_created "/g" stbuf0 = - ENOENT
  /\ (st_mode ∘ snd) <$> returned (mediafirefs_getattr X "/g" stbuf0 g_created)
     = Some 33206
  /\ (st_mode ∘ snd) <$> returned (mediafirefs_getattr X "/g" stbuf0 g_created)
     <> Some (Z.lor S_IFREG perm_0644).
Proof.
  repeat split; try (vm_compute; reflexivity).
  vm_compute. intros H. discriminate H.
Qed.

(** C9 at [/f], opened read-write (so not created locally) with five bytes
    staged, after the file has disappeared from the remote: the size
    reported is 0. *)
Lemma getattr_fallback_ignores_handle_witness :
  heap f_writable_deleted !! 1
  = Some {| fd := 0; path := "/f"; is_readonly := false; is_local := false |}
  /\ file_content (fs f_writable_deleted) 0 = Some hello
  /\ returned (mediafirefs_getattr X "/f" stbuf0 f_writable_deleted)
     = Some (0, synthetic_stat X)
  /\ st_size (synthetic_stat X) = 0.
Proof.
  assert (Hh : heap f_writable_deleted !! 1
               = Some {| fd := 0; path := "/f"; is_readonly := false;
                         is_local := false |}) by (vm_compute; reflexivity).
  assert (Hc : file_content (fs f_writable_deleted) 0 = Some hello)
    by (vm_compute; reflexivity).
  split; [exact Hh|]. split; [exact Hc|].
  apply (getattr_fallback_ignores_handle X f_writable_deleted "/f" stbuf0 1 _ hello
           Hh eq_refl eq_refl Hc) with (local := false).
  - vm_compute. reflexivity.
  - vm_compute. lia.
  - reflexivity.
Defined.

(** C7 at the folder name ["sub"]. *)
Lemma folder_create_myfiles_is_root_witness :
  exists retval url w',
    mfconn_api_folder_create X mfconn_of_ctx (Some "myfiles") (Some "sub") mounted
    = Ret retval w'
    /\ calls w'
       = calls mounted
           ++ [CallSignedGet 0 "folder/create.php"
                 ("?foldername=" +:+ cstr "sub" +:+ "&response_format=json");
               CallHttpGetBuf url].
Proof.
  apply (proj2 (folder_create_myfiles_is_root X mounted) "sub").
  vm_compute. lia.
Defined.

(** C3: [/nodir] is not a folder of the catalog, and [mkdir /nodir/sub]
    returns 0 after asking the remote to create [sub] in the account
    root. *)
Lemma mkdir_unresolved_parent_creates_in_root :
  fst (folder_tree_path_get_key X (backend mounted) "/nodir") = None
  /\ returned (mediafirefs_mkdir X "/nodir/sub" perm_0755 mounted) = Some 0
  /\ returned (mediafirefs_mkdir X "/nodir/sub" perm_0755 mounted) <> Some (- ENOENT)
  /\ calls <$> final (mediafirefs_mkdir X "/nodir/sub" perm_0755 mounted)
     = Some [CallTreePathGetKey "/nodir";
             CallSignedGet 0 "folder/create.php" "?foldername=sub&response_format=json";
             CallHttpGetBuf
               (Some "http://www.mediafire.com/api/folder/create.php?foldername=sub&response_format=json");
             CallTreeUpdate true].
Proof.
  repeat split; try (vm_compute; reflexivity).
  vm_compute. intros H. discriminate H.
Qed.

(** C5: the release of [/g] when the upload is accepted and the poll
    fails returns -1, which is not [-EACCES]; entry, descriptor and
    structure are released all the same. *)
Lemma release_poll_failure_returns_minus_1 :
  heap g_created !! 1
  = Some {| fd := 0; path := "/g"; is_readonly := false; is_local := true |}
  /\ returned (mediafirefs_release X_poll_down 5 "/g" {| flags := O_WRONLY; fh := 1 |}
                 g_created) = Some (-1)
  /\ -1 <> - EACCES
  /\ match final (mediafirefs_release X_poll_down 5 "/g"
                    {| flags := O_WRONLY; fh := 1 |} g_created) with
     | Some w' =>
       sv_writefiles w' = [] /\ heap w' !! 1 = None /\ fdt (fs w') !! 0 = None
     | None => False
     end.
Proof.
  repeat split; try (vm_compute; reflexivity).
  vm_compute. intros H. discriminate H.
Qed.

End Runs.

(** ** Round trip through the reference backend *)

Section RoundTrip.

Import Reference.

Variables uid gid : Z.

Local Abbreviation X := (ops uid gid).

(** Writing at offset 0 into an empty file leaves the bytes written. *)
Lemma pwrite_fresh (fs0 : fs_state) (fd0 : Z) (bytes : list byte) :
  file_content fs0 fd0 = Some [] ->
  exists n, fst (pwrite fs0 fd0 bytes 0) = n /\
  file_content (snd (pwrite fs0 fd0 bytes 0)) fd0 = Some bytes.
Proof.
  unfold file_content, pwrite. intros H.
  destruct (fdt fs0 !! fd0) as [i|] eqn:Hfd; [|discriminate].
  injection H as H. simpl.
  destruct bytes as [|b bytes]; simpl.
  - exists 0. split; [reflexivity|]. rewrite Hfd, H. reflexivity.
  - eexists. split; [reflexivity|]. rewrite Hfd. rewrite lookup_insert_eq. simpl.
    rewrite H. simpl. rewrite app_nil_r. reflexivity.
Qed.

(** A create that returns 0 hands out a handle for the path, marked local,
    whose descriptor refers to an empty staged file. *)
Lemma create_handle (w w1 : world state) (P : string) (mode : Z) (fi fi1 : fuse_file_info) :
  mediafirefs_create X P mode fi w = Ret (0, fi1) w1 ->
  exists fd0,
    heap w1 !! fh fi1 = Some {| fd := fd0; path := P; is_readonly := false; is_local := true |}
    /\ file_content (fs w1) fd0 = Some [].
Proof.
  unfold mediafirefs_create. unfold_monad. simpl.
  unfold tmp_open. destruct (staging_ok (backend w)); simpl.
  - destruct (lowest_free (fdt (fs w)) <? 0) eqn:Hneg; simpl.
    + intros H. discriminate H.
    + intros H. injection H as <- <-. simpl.
      eexists. split.
      * apply lookup_insert_eq.
      * unfold file_content. simpl. rewrite lookup_insert_eq.
        rewrite lookup_insert_eq. reflexivity.
  - intros H. discriminate H.
Qed.

Lemma write_staged (w : world state) (P : string) (bytes : list byte)
    (fi : fuse_file_info) (o : mediafirefs_openfile) :
  heap w !! fh fi = Some o ->
  file_content (fs w) (fd o) = Some [] ->
  exists n w2,
    mediafirefs_write P bytes 0 fi w = Ret n w2
    /\ heap w2 = heap w
    /\ file_content (fs w2) (fd o) = Some bytes
    /\ sv_writefiles w2 = sv_writefiles w
    /\ sv_readonlyfiles w2 = sv_readonlyfiles w
    /\ backend w2 = backend w.
Proof.
  intros Ho Hc. unfold mediafirefs_write. unfold_monad. rewrite Ho.
  destruct (pwrite_fresh (fs w) (fd o) bytes Hc) as (n & Hn & Hc').
  destruct (pwrite (fs w) (fd o) bytes 0) as [n' f] eqn:Hp. simpl in *.
  eexists _, _. split; [reflexivity|]. simpl. auto.
Qed.

(** The polling loop is left by [return] with -1 only. *)
Lemma poll_error_value {T} (Y : externals T) (fuel : nat) (key : string)
    (w w' : world T) (v : Z) :
  poll_for_completion Y fuel key w = Ret (Some v) w' -> v = -1.
Proof.
  revert w. induction fuel as [|fuel IH]; intros w; simpl; [discriminate|].
  unfold bind, mfconn_api_upload_poll_uploadM.
  destruct (mfconn_api_upload_poll_upload Y _ _) as [[[retval status] fe] b]; simpl.
  destruct (retval =? 0); simpl.
  - destruct (status =? 99); simpl; [discriminate|]. apply IH.
  - intros H. injection H as <- _. reflexivity.
Qed.

(** What a poll loop that ends with status 99 leaves in the remote store. *)
Lemma poll_commits (fuel : nat) (key : string) (w w' : world state) (u : upload) :
  poll_for_completion X fuel key w = Ret None w' ->
  uploads (backend w) !! key = Some u ->
  remote (backend w') !! (up_parent u, up_name u) = Some (up_content u)
  /\ folders (backend w') = folders (backend w)
  /\ online (backend w') = true.
Proof.
  revert w u. induction fuel as [|fuel IH]; intros w u; simpl; [discriminate|].
  unfold bind, mfconn_api_upload_poll_uploadM. simpl. unfold upload_poll.
  destruct (online (backend w)) eqn:Hon; [|simpl; discriminate].
  intros H Hu. rewrite Hu in H.
  destruct (up_left u) as [|n] eqn:Hleft; simpl in H.
  - injection H as <-. simpl. rewrite lookup_insert_eq. auto.
  - apply IH with (u := {| up_left := n; up_parent := up_parent u;
                           up_name := up_name u; up_content := up_content u |}) in H.
    + simpl in H. exact H.
    + simpl. apply lookup_insert_eq.
Qed.

(** A release of a local handle that returns 0 has put the staged bytes
    into the remote store under the parent folder and the name of the
    path, and the catalog knows the file. *)
Lemma release_uploads (fuel : nat) (p : string) (fi : fuse_file_info)
    (w w3 : world state) (o : mediafirefs_openfile) (bytes : list byte) :
  mediafirefs_release X fuel p fi w = Ret 0 w3 ->
  heap w !! fh fi = Some o ->
  is_readonly o = false ->
  is_local o = true ->
  file_content (fs w) (fd o) = Some bytes ->
  let k := (root_or (folders (backend w) !! dirname (path o)), basename (path o)) in
  stringv_mem (sv_writefiles w3) (path o) = false
  /\ sv_readonlyfiles w3 = sv_readonlyfiles w
  /\ folders (backend w3) = folders (backend w)
  /\ online (backend w3) = true
  /\ remote (backend w3) !! k = Some bytes
  /\ is_Some (catalog (backend w3) !! k).
Proof.
  intros Hrel Ho Hro Hlocal Hc k.
  pose proof (release_effect X _ _ _ _ _ _ Hrel) as (o' & Ho' & _ & _ & Hsv).
  rewrite Ho in Ho'. injection Ho' as <-. rewrite Hro in Hsv.
  destruct Hsv as (Hdel & Hw3 & Hmem & Hr3).
  split; [exact Hmem|]. split; [exact Hr3|].
  revert Hrel. unfold mediafirefs_release. unfold_monad.
  rewrite Ho, Hro.
  destruct (stringv_del (sv_writefiles w) (path o)) as [r0 sv] eqn:Hd.
  simpl in Hdel. subst r0. simpl.
  destruct (stringv_mem sv (path o)); [discriminate|].
  rewrite Hlocal. simpl. rewrite Hc. simpl.
  unfold upload_simple.
  destruct (online (backend w)) eqn:Hon; simpl; [|discriminate].
  match goal with
  | |- context [poll_for_completion X fuel ?key ?w0] =>
    destruct (poll_for_completion X fuel key w0) as [[v|] w1| | |] eqn:Hpoll;
      try discriminate
  end.
  - intros H. injection H as -> _.
    apply poll_error_value in Hpoll. discriminate Hpoll.
  - intros H. injection H as <-.
    eapply poll_commits in Hpoll; [|simpl; apply lookup_insert_eq].
    simpl in Hpoll. destruct Hpoll as (Hrem & Hfold & Honl).
    simpl. unfold update. rewrite Honl. simpl.
    split; [exact Hfold|]. split; [exact Honl|]. split; [exact Hrem|].
    rewrite lookup_fmap. fold k. unfold k. rewrite Hrem. simpl. eauto.
Qed.


(** A read-only open of a path without open handle fetches what the remote
    holds into the staged file behind the descriptor it returns. *)
Lemma open_fetches (w w4 : world state) (P : string) (fi fi2 : fuse_file_info)
    (bytes : list byte) :
  mediafirefs_open X P fi w = Ret (0, fi2) w4 ->
  accmode fi = O_RDONLY ->
  stringv_mem (sv_readonlyfiles w) P = false ->
  stringv_mem (sv_writefiles w) P = false ->
  remote (backend w) !! (root_or (folders (backend w) !! dirname P), basename P)
  = Some bytes ->
  exists o,
    heap w4 !! fh fi2 = Some o
    /\ file_content (fs w4) (fd o) = Some bytes.
Proof.
  intros Hopen Hmode Hro Hwr Hrem. revert Hopen.
  unfold mediafirefs_open. unfold_monad.
  rewrite Hmode, Hro, Hwr. simpl.
  unfold open_file, file_key.
  destruct (folders (backend w) !! dirname P) as [kk|] eqn:Hk; simpl;
    [|intros H; discriminate H].
  destruct (catalog (backend w) !! _) as [sz|]; simpl; [|intros H; discriminate H].
  destruct (online (backend w)); simpl; [|intros H; discriminate H].
  simpl in Hrem. rewrite Hrem. simpl.
  destruct (Z.ltb_spec (lowest_free (fdt (fs w))) 0) as [Hneg|_]; simpl;
    [intros H; injection H as Hfd _ _; lia|].
  intros H. injection H as <- <-. simpl.
  eexists. split; [apply lookup_insert_eq|].
  unfold file_content. simpl. rewrite lookup_insert_eq, lookup_insert_eq.
  reflexivity.
Qed.

Lemma read_staged (w : world state) (P : string) (fi : fuse_file_info)
    (o : mediafirefs_openfile) (bytes : list byte) :
  heap w !! fh fi = Some o ->
  file_content (fs w) (fd o) = Some bytes ->
  mediafirefs_read P (length bytes) 0 fi w
  = Ret (to_int (Z.of_nat (length bytes)), bytes) w.
Proof.
  intros Ho Hc. unfold mediafirefs_read. unfold_monad. rewrite Ho.
  unfold pread. rewrite Hc. simpl. rewrite take_ge by reflexivity.
  reflexivity.
Qed.



(** *** The sequence runs to its end on a working backend *)

Lemma lowest_free_nonneg (m : gmap Z nat) : 0 <= lowest_free m.
Proof.
  unfold lowest_free.
  destruct (head _) as [z|] eqn:Hhead; simpl; [|lia].
  apply head_Some_elem_of in Hhead.
  apply list_elem_of_filter in Hhead as [_ Hin].
  apply list_elem_of_fmap in Hin as (n & -> & _). lia.
Qed.

Lemma stringv_del_add_fresh (sv : list string) (e : string) :
  stringv_mem sv e = false ->
  stringv_del (stringv_add sv e) e = (0, sv).
Proof.
  unfold stringv_mem, stringv_add. rewrite bool_decide_eq_false.
  induction sv as [|x sv IH]; simpl; intros Hnot.
  - rewrite decide_True by reflexivity. reflexivity.
  - rewrite not_elem_of_cons in Hnot. destruct Hnot as [Hne Hnot].
    rewrite decide_False by congruence. rewrite IH by exact Hnot. reflexivity.
Qed.

(** Enough fuel lets the polling loop see status 99. *)
Lemma poll_terminates (fuel : nat) (key : string) (w : world state) (u : upload) :
  online (backend w) = true ->
  uploads (backend w) !! key = Some u ->
  (up_left u < fuel)%nat ->
  exists w', poll_for_completion X fuel key w = Ret None w'.
Proof.
  revert w u. induction fuel as [|fuel IH]; intros w u Hon Hu Hlt; [lia|].
  simpl. unfold bind, mfconn_api_upload_poll_uploadM. simpl. unfold upload_poll.
  rewrite Hon, Hu. destruct (up_left u) as [|n] eqn:Hleft; simpl.
  - eexists. reflexivity.
  - apply IH with (u := {| up_left := n; up_parent := up_parent u;
                           up_name := up_name u; up_content := up_content u |}).
    + exact Hon.
    + simpl. apply lookup_insert_eq.
    + simpl. lia.
Qed.

Lemma create_succeeds (w : world state) (P : string) (mode : Z) (fi : fuse_file_info) :
  staging_ok (backend w) = true ->
  exists fi1 w1,
    mediafirefs_create X P mode fi w = Ret (0, fi1) w1
    /\ backend w1 = backend w
    /\ sv_writefiles w1 = stringv_add (sv_writefiles w) P
    /\ sv_readonlyfiles w1 = sv_readonlyfiles w.
Proof.
  intros Hok. unfold mediafirefs_create. unfold_monad. simpl.
  unfold tmp_open. rewrite Hok. simpl.
  pose proof (lowest_free_nonneg (fdt (fs w))) as Hfd.
  destruct (Z.ltb_spec (lowest_free (fdt (fs w))) 0) as [Hneg|_]; [lia|].
  simpl. eexists _, _. split; [reflexivity|]. simpl. auto.
Qed.

Lemma release_succeeds (fuel : nat) (p : string) (fi : fuse_file_info)
    (w : world state) (o : mediafirefs_openfile) (bytes : list byte)
    (sv : list string) :
  heap w !! fh fi = Some o ->
  is_readonly o = false ->
  is_local o = true ->
  file_content (fs w) (fd o) = Some bytes ->
  stringv_del (sv_writefiles w) (path o) = (0, sv) ->
  stringv_mem sv (path o) = false ->
  online (backend w) = true ->
  (latency (backend w) < fuel)%nat ->
  exists w3, mediafirefs_release X fuel p fi w = Ret 0 w3.
Proof.
  intros Ho Hro Hlocal Hc Hdel Hmem Hon Hfuel.
  unfold mediafirefs_release. unfold_monad.
  rewrite Ho, Hro, Hdel. simpl. rewrite Hmem, Hlocal. simpl. rewrite Hc. simpl.
  unfold upload_simple. rewrite Hon. simpl.
  match goal with
  | |- context [poll_for_completion X fuel ?key ?w0] =>
    destruct (poll_terminates fuel key w0
                {| up_left := latency (backend w);
                   up_parent := root_or (folders (backend w) !! dirname (path o));
                   up_name := basename (path o); up_content := bytes |})
      as (w' & ->)
  end.
  - exact Hon.
  - simpl. apply lookup_insert_eq.
  - simpl. lia.
  - eexists. reflexivity.
Qed.

Lemma open_succeeds (w : world state) (P : string) (fi : fuse_file_info)
    (kk : string) (bytes : list byte) :
  accmode fi = O_RDONLY ->
  stringv_mem (sv_readonlyfiles w) P = false ->
  stringv_mem (sv_writefiles w) P = false ->
  online (backend w) = true ->
  folders (backend w) !! dirname P = Some kk ->
  is_Some (catalog (backend w) !! (root_or (Some kk), basename P)) ->
  remote (backend w) !! (root_or (Some kk), basename P) = Some bytes ->
  exists fi2 w4, mediafirefs_open X P fi w = Ret (0, fi2) w4.
Proof.
  intros Hmode Hro Hwr Hon Hk [sz Hcat] Hrem.
  unfold mediafirefs_open. unfold_monad.
  rewrite Hmode, Hro, Hwr. simpl.
  unfold open_file, file_key. rewrite Hk. simpl in *. rewrite Hcat, Hon, Hrem.
  simpl.
  pose proof (lowest_free_nonneg (fdt (fs w))) as Hfd.
  destruct (Z.ltb_spec (lowest_free (fdt (fs w))) 0) as [Hneg|_]; [lia|].
  simpl. eexists _, _. reflexivity.
Qed.

(** On a backend that is online and has a writable staging directory, for
    a path that is not open and whose parent folder resolves, the whole
    sequence returns successfully (the release with as much fuel as the
    upload needs polls) and the read yields the bytes written. *)
Lemma roundtrip_succeeds (w : world state) (P : string) (mode : Z)
    (bytes : list byte) (fi fir : fuse_file_info) (kk : string) :
  staging_ok (backend w) = true ->
  online (backend w) = true ->
  folders (backend w) !! dirname P = Some kk ->
  stringv_mem (sv_writefiles w) P = false ->
  stringv_mem (sv_readonlyfiles w) P = false ->
  accmode fir = O_RDONLY ->
  exists fi1 w1 n w2 w3 fi2 w4,
    mediafirefs_create X P mode fi w = Ret (0, fi1) w1
    /\ mediafirefs_write P bytes 0 fi1 w1 = Ret n w2
    /\ mediafirefs_release X (S (latency (backend w))) P fi1 w2 = Ret 0 w3
    /\ mediafirefs_open X P fir w3 = Ret (0, fi2) w4
    /\ mediafirefs_read P (length bytes) 0 fi2 w4
       = Ret (to_int (Z.of_nat (length bytes)), bytes) w4.
Proof.
  intros Hok Hon Hk Hnw Hnr Hmode.
  destruct (create_succeeds w P mode fi Hok) as (fi1 & w1 & Hcreate & Hb1 & Hw1 & Hr1).
  destruct (create_handle _ _ _ _ _ _ Hcreate) as (fd0 & Ho & Hempty).
  destruct (write_staged w1 P bytes fi1 _ Ho Hempty)
    as (n & w2 & Hwrite & Hheap & Hstaged & Hw2 & Hr2 & Hb2).
  assert (Ho2 : heap w2 !! fh fi1
                = Some {| fd := fd0; path := P; is_readonly := false; is_local := true |})
    by (rewrite Hheap; exact Ho).
  assert (Hdel : stringv_del (sv_writefiles w2) P = (0, sv_writefiles w)).
  { rewrite Hw2, Hw1. apply stringv_del_add_fresh. exact Hnw. }
  destruct (release_succeeds (S (latency (backend w))) P fi1 w2 _ bytes
              (sv_writefiles w) Ho2 eq_refl eq_refl Hstaged Hdel Hnw)
    as (w3 & Hrelease).
  { rewrite Hb2, Hb1. exact Hon. }
  { rewrite Hb2, Hb1. lia. }
  destruct (release_uploads _ _ _ _ _ _ bytes Hrelease Ho2 eq_refl eq_refl Hstaged)
    as (Hnw3 & Hr3 & Hfold & Hon3 & Hrem & Hcat).
  simpl in Hnw3, Hrem, Hcat.
  rewrite Hb2, Hb1, Hk in Hrem, Hcat. rewrite Hb2, Hb1 in Hfold.
  assert (Hnr3 : stringv_mem (sv_readonlyfiles w3) P = false)
    by (rewrite Hr3, Hr2, Hr1; exact Hnr).
  destruct (open_succeeds w3 P fir kk bytes Hmode Hnr3 Hnw3 Hon3) as (fi2 & w4 & Hopen).
  { rewrite Hfold. exact Hk. }
  { exact Hcat. }
  { exact Hrem. }
  assert (Hrem3 : remote (backend w3)
                  !! (root_or (folders (backend w3) !! dirname P), basename P)
                  = Some bytes)
    by (rewrite Hfold, Hk; exact Hrem).
  destruct (open_fetches _ _ _ _ _ bytes Hopen Hmode Hnr3 Hnw3 Hrem3)
    as (o & Ho4 & Hc4).
  exists fi1, w1, n, w2, w3, fi2, w4.
  repeat (split; [assumption|]).
  apply read_staged with (o := o); assumption.
Qed.

End RoundTrip.



(** * The remaining code *)

(** ** mfapi/file.c: hash, name and links *)

Lemma cstr_no_zero (s : string) : Ascii.zero ∉ list_ascii_of_string (cstr s).
Proof.
  induction s as [|c s IH]; simpl.
  - apply not_elem_of_nil.
  - destruct (Ascii.eqb_spec c Ascii.zero) as [->|Hc]; simpl.
    + apply not_elem_of_nil.
    + rewrite not_elem_of_cons. split; [congruence | exact IH].
Qed.

(** Reading an array stops at the first NUL. *)
Lemma string_at_prefix (l rest : list ascii) :
  Ascii.zero ∉ l ->
  string_at (l ++ Ascii.zero :: rest) = string_of_list_ascii l.
Proof.
  unfold string_at. induction l as [|c l IH]; simpl; intros Hl.
  - reflexivity.
  - rewrite not_elem_of_cons in Hl. destruct Hl as [Hc Hl].
    destruct (Ascii.eqb_spec c Ascii.zero) as [->|_]; [congruence|].
    f_equal. apply IH. exact Hl.
Qed.

(** What [memset] followed by [strncpy] of all but the last element leaves
    in an array: the first [n] characters of the text. *)
Lemma stored_text (a : list ascii) (k : string) (n : nat) :
  string_at (strncpy (memset0 a (S n)) k n)
  = string_of_list_ascii (take n (list_ascii_of_string (cstr k))).
Proof.
  unfold strncpy, memset0.
  set (l := list_ascii_of_string (cstr k)).
  assert (Hz : Ascii.zero ∉ l) by apply cstr_no_zero.
  rewrite drop_app_le by (rewrite length_replicate; lia).
  rewrite drop_replicate. replace (S n - n)%nat with 1%nat by lia. simpl.
  destruct (le_lt_dec (length l) n) as [Hle|Hgt].
  - rewrite take_app_ge by lia. rewrite take_replicate.
    rewrite (take_ge l n) by lia.
    rewrite <- app_assoc.
    destruct ((n - length l) `min` n)%nat as [|m]; simpl.
    + apply string_at_prefix. exact Hz.
    + apply string_at_prefix. exact Hz.
  - rewrite take_app_le by lia.
    apply string_at_prefix. intros Hin. apply Hz.
    exact (subseteq_take n l _ Hin).
Qed.

Lemma stored_text_fits (a : list ascii) (k : string) (n : nat) :
  (strlen k <= n)%nat ->
  string_at (strncpy (memset0 a (S n)) k n) = cstr k.
Proof.
  intros Hle. rewrite stored_text.
  rewrite take_ge by (rewrite length_list_ascii_of_string; exact Hle).
  apply string_of_list_ascii_of_string.
Qed.

Section FileAttributes.

Import File.

(** X1.  [file_set_hash] returns 0 exactly for a non-NULL file and a
    non-NULL hash of at least 32 characters; otherwise it returns -1 and
    leaves the object as it was. *)
Theorem file_set_hash_accepts (file : option mffile) (h : option string) :
  (fst (file_set_hash file h) = 0
   <-> exists f k, file = Some f /\ h = Some k /\ (32 <= strlen k)%nat)
  /\ (fst (file_set_hash file h) <> 0 ->
      fst (file_set_hash file h) = -1 /\ snd (file_set_hash file h) = file).
Proof.
  destruct file as [f|]; [|simpl; split; [split; [discriminate|];
                            intros (f & k & Hf & _); discriminate | auto]].
  destruct h as [k|]; [|simpl; split; [split; [discriminate|];
                          intros (f' & k & _ & Hk & _); discriminate | auto]].
  unfold file_set_hash.
  destruct (Nat.ltb_spec (strlen k) 32) as [Hlt|Hge]; simpl.
  - split; [|auto]. split; [discriminate|].
    intros (f' & k' & _ & Hk & Hlen). injection Hk as <-. lia.
  - split.
    + split; [intros _; exists f, k; auto | reflexivity].
    + intros Hne. exfalso. apply Hne. reflexivity.
Qed.

(** X2.  After a successful [file_set_hash], [file_get_hash] returns the
    first 64 characters of the hash: the hash itself when it has at most 64
    characters, a proper prefix of it when it is longer. *)
Theorem file_get_hash_after_set (f : mffile) (k : string) :
  (32 <= strlen k)%nat ->
  file_get_hash (snd (file_set_hash (Some f) (Some k)))
  = Some (string_of_list_ascii (take 64 (list_ascii_of_string (cstr k))))
  /\ ((strlen k <= 64)%nat ->
      file_get_hash (snd (file_set_hash (Some f) (Some k))) = Some (cstr k))
  /\ ((64 < strlen k)%nat ->
      file_get_hash (snd (file_set_hash (Some f) (Some k))) <> Some (cstr k)).
Proof.
  intros Hge. unfold file_set_hash.
  destruct (Nat.ltb_spec (strlen k) 32) as [Hlt|_]; [lia|]. simpl.
  change (sizeof_hash - 1)%nat with 64%nat.
  change sizeof_hash with (S 64). rewrite stored_text.
  split; [reflexivity|]. split.
  - intros Hle. f_equal.
    rewrite take_ge by (rewrite length_list_ascii_of_string; exact Hle).
    apply string_of_list_ascii_of_string.
  - intros Hgt Heq. injection Heq as Heq.
    apply (f_equal String.length) in Heq.
    rewrite <- length_list_ascii_of_string in Heq.
    rewrite list_ascii_of_string_of_list_ascii in Heq.
    rewrite length_take in Heq.
    rewrite length_list_ascii_of_string in Heq.
    unfold strlen in Hgt. lia.
Qed.

Lemma file_get_hash_after_set_witness :
  file_get_hash (snd (file_set_hash (Some file_alloc)
                        (Some "d41d8cd98f00b204e9800998ecf8427e")))
  = Some "d41d8cd98f00b204e9800998ecf8427e".
Proof.
  apply (file_get_hash_after_set file_alloc "d41d8cd98f00b204e9800998ecf8427e").
  - vm_compute. lia.
  - vm_compute. lia.
Defined.

(** X3.  [file_set_name] returns 0 exactly for a non-NULL file and a
    non-NULL name of at most 255 characters, the empty name included;
    [file_get_name] then returns the name.  Otherwise it returns -1 and
    leaves the object as it was. *)
Theorem file_set_name_spec (file : option mffile) (n : option string) :
  (fst (file_set_name file n) = 0
   <-> exists f k, file = Some f /\ n = Some k /\ (strlen k <= 255)%nat)
  /\ (fst (file_set_name file n) = 0 ->
      exists k, n = Some k
                /\ file_get_name (snd (file_set_name file n)) = Some (cstr k))
  /\ (fst (file_set_name file n) <> 0 ->
      fst (file_set_name file n) = -1 /\ snd (file_set_name file n) = file).
Proof.
  destruct file as [f|];
    [|simpl; split; [split; [discriminate|];
        intros (f & k & Hf & _); discriminate | split; [discriminate | auto]]].
  destruct n as [k|];
    [|simpl; split; [split; [discriminate|];
        intros (f' & k & _ & Hk & _); discriminate | split; [discriminate | auto]]].
  unfold file_set_name.
  destruct (Nat.ltb_spec 255 (strlen k)) as [Hgt|Hle]; simpl.
  - split; [|split; [discriminate | auto]]. split; [discriminate|].
    intros (f' & k' & _ & Hk & Hlen). injection Hk as <-. lia.
  - split; [|split].
    + split; [intros _; exists f, k; auto | reflexivity].
    + intros _. exists k. split; [reflexivity|]. f_equal.
      change (sizeof_name - 1)%nat with 255%nat.
      change sizeof_name with (S 255). apply stored_text_fits. exact Hle.
    + intros Hne. exfalso. apply Hne. reflexivity.
Qed.

(** The three setters on arguments they accept. *)
Lemma file_set_key_ok (f : mffile) (k : string) :
  (strlen k = 11 \/ strlen k = 15)%nat ->
  file_set_key (Some f) (Some k)
  = (0, Some (set_quickkey f (strncpy (memset0 (quickkey f) sizeof_quickkey) k
                                (sizeof_quickkey - 1)))).
Proof.
  intros Hlen. unfold file_set_key.
  rewrite to_int_small by (unfold INT_MAX; lia).
  destruct Hlen as [-> | ->]; reflexivity.
Qed.

Lemma file_set_hash_ok (f : mffile) (k : string) :
  (32 <= strlen k)%nat ->
  file_set_hash (Some f) (Some k)
  = (0, Some (set_hash f (strncpy (memset0 (hash f) sizeof_hash) k (sizeof_hash - 1)))).
Proof.
  intros Hlen. unfold file_set_hash.
  destruct (Nat.ltb_spec (strlen k) 32) as [Hlt|_]; [lia | reflexivity].
Qed.

Lemma file_set_name_ok (f : mffile) (k : string) :
  (strlen k <= 255)%nat ->
  file_set_name (Some f) (Some k)
  = (0, Some (set_name f (strncpy (memset0 (name f) sizeof_name) k (sizeof_name - 1)))).
Proof.
  intros Hlen. unfold file_set_name.
  destruct (Nat.ltb_spec 255 (strlen k)) as [Hgt|_]; [lia | reflexivity].
Qed.

(** X4.  Filling a file object: after [file_set_key], [file_set_hash] and
    [file_set_name] with a key of 11 or 15 characters, a hash of 32 to 64
    characters and a name of at most 255 characters, all three calls have
    returned 0 and the three getters return key, hash and name: no setter
    disturbs what another has stored. *)
Theorem file_filled (f : mffile) (key h n : string) :
  (strlen key = 11 \/ strlen key = 15)%nat ->
  (32 <= strlen h <= 64)%nat ->
  (strlen n <= 255)%nat ->
  let r1 := file_set_key (Some f) (Some key) in
  let r2 := file_set_hash (snd r1) (Some h) in
  let r3 := file_set_name (snd r2) (Some n) in
  fst r1 = 0 /\ fst r2 = 0 /\ fst r3 = 0
  /\ file_get_key (snd r3) = Some (cstr key)
  /\ file_get_hash (snd r3) = Some (cstr h)
  /\ file_get_name (snd r3) = Some (cstr n).
Proof.
  intros Hkey Hh Hn r1 r2 r3. subst r1 r2 r3.
  rewrite (file_set_key_ok f key Hkey). cbn [snd].
  rewrite file_set_hash_ok by lia. cbn [snd].
  rewrite file_set_name_ok by exact Hn. simpl.
  repeat split; f_equal.
  - change (sizeof_quickkey - 1)%nat with 17%nat.
    change sizeof_quickkey with (S 17). apply stored_text_fits.
    destruct Hkey as [-> | ->]; lia.
  - change (sizeof_hash - 1)%nat with 64%nat.
    change sizeof_hash with (S 64). apply stored_text_fits. lia.
  - change (sizeof_name - 1)%nat with 255%nat.
    change sizeof_name with (S 255). apply stored_text_fits. exact Hn.
Qed.

Lemma file_filled_witness :
  let r1 := file_set_key (Some file_alloc) (Some "abcdefghijk") in
  let r2 := file_set_hash (snd r1) (Some "d41d8cd98f00b204e9800998ecf8427e") in
  let r3 := file_set_name (snd r2) (Some "notes.txt") in
  fst r1 = 0 /\ fst r2 = 0 /\ fst r3 = 0
  /\ file_get_key (snd r3) = Some "abcdefghijk"
  /\ file_get_hash (snd r3) = Some "d41d8cd98f00b204e9800998ecf8427e"
  /\ file_get_name (snd r3) = Some "notes.txt".
Proof.
  apply (file_filled file_alloc "abcdefghijk" "d41d8cd98f00b204e9800998ecf8427e"
           "notes.txt").
  - vm_compute. lia.
  - vm_compute. lia.
  - vm_compute. lia.
Defined.

End FileAttributes.

(** ** Handles: open, create, release *)

(** The address [malloc] hands out is not NULL and not in use. *)
Lemma fresh_ptr_spec (h : gmap Z mediafirefs_openfile) :
  h !! fresh_ptr h = None /\ fresh_ptr h <> 0.
Proof.
  unfold fresh_ptr.
  assert (Hbound : 0 <= map_fold (fun k _ acc => Z.max k acc) 0 h
                   /\ forall k o, h !! k = Some o ->
                        k <= map_fold (fun k _ acc => Z.max k acc) 0 h).
  { apply (map_fold_weak_ind
             (fun r (m : gmap Z mediafirefs_openfile) =>
                0 <= r /\ forall k o, m !! k = Some o -> k <= r)).
    - split; [lia|]. intros k o Hk. rewrite lookup_empty in Hk. discriminate.
    - intros i x m r Hi [Hr Hall]. split; [lia|].
      intros k o Hk. destruct (decide (i = k)) as [->|Hne].
      + lia.
      + rewrite lookup_insert_ne in Hk by exact Hne.
        specialize (Hall k o Hk). lia. }
  destruct Hbound as [H0 Hall]. split; [|lia].
  destruct (h !! (1 + _)) as [o|] eqn:Hl; [|reflexivity].
  specialize (Hall _ _ Hl). lia.
Qed.

Section Handles.

Context {T : Type} (X : externals T).

(** An open that is not turned down by the test on the writable multiset,
    step by step. *)
Lemma open_run (w : world T) (path : string) (file_info : fuse_file_info)
    (fd0 : Z) (b : T) (f : fs_state) :
  accmode file_info = O_RDONLY \/ stringv_mem (sv_writefiles w) path = false ->
  folder_tree_open_file X (backend w) (fs w) path (flags file_info)
    (refresh_flag w path) = (fd0, b, f) ->
  mediafirefs_open X path file_info w
  = if fd0 <? 0 then Ret (fd0, file_info) (opened w path (flags file_info) b f)
    else
      let o := {| fd := fd0; path := path;
                  is_readonly := (accmode file_info =? O_RDONLY);
                  is_local := false |} in
      let w1 := set_heap (<[fresh_ptr (heap w) := o]> (heap w))
                  (opened w path (flags file_info) b f) in
      Ret (0, set_fh file_info (fresh_ptr (heap w)))
          (if accmode file_info =? O_RDONLY
           then set_readonlyfiles (stringv_add (sv_readonlyfiles w) path) w1
           else set_writefiles (stringv_add (sv_writefiles w) path) w1).
Proof.
  intros Hok Hopen. unfold mediafirefs_open, opened, refresh_flag in *.
  unfold_monad.
  destruct (Z.eqb_spec (accmode file_info) O_RDONLY) as [Hm|Hm]; simpl.
  - assert (Hflag : negb (if negb (if stringv_mem (sv_readonlyfiles w) path
                                   then true else false)
                             && true && stringv_mem (sv_writefiles w) path
                          then true
                          else if stringv_mem (sv_readonlyfiles w) path
                               then true else false)
                    = negb (stringv_mem (sv_readonlyfiles w) path
                            || stringv_mem (sv_writefiles w) path)).
    { destruct (stringv_mem (sv_readonlyfiles w) path),
               (stringv_mem (sv_writefiles w) path); reflexivity. }
    rewrite Hflag, Hopen. simpl. destruct (fd0 <? 0); reflexivity.
  - destruct Hok as [Hm'|Hw]; [contradiction|]. rewrite Hw in *. simpl.
    assert (Hflag : negb (if negb (if stringv_mem (sv_readonlyfiles w) path
                                   then true else false) && false && false
                          then true
                          else if stringv_mem (sv_readonlyfiles w) path
                               then true else false)
                    = negb (stringv_mem (sv_readonlyfiles w) path || false)).
    { destruct (stringv_mem (sv_readonlyfiles w) path); reflexivity. }
    rewrite Hflag, Hopen. simpl. destruct (fd0 <? 0); reflexivity.
Qed.


(** X5.  An open that is not turned down asks the tree for the file exactly
    once, and asks it to refresh the staged copy exactly when the path has
    no open handle, read-only or writable. *)
Theorem open_refreshes_only_without_handles (w : world T) (path : string)
    (file_info : fuse_file_info) :
  accmode file_info = O_RDONLY \/ stringv_mem (sv_writefiles w) path = false ->
  exists r w',
    mediafirefs_open X path file_info w = Ret r w'
    /\ calls w'
       = calls w ++ [CallTreeOpenFile path (flags file_info) (refresh_flag w path)].
Proof.
  intros Hok.
  destruct (folder_tree_open_file X (backend w) (fs w) path (flags file_info)
              (refresh_flag w path)) as [[fd0 b] f] eqn:Hopen.
  rewrite (open_run w path file_info fd0 b f Hok Hopen).
  destruct (fd0 <? 0).
  - eexists _, _. split; reflexivity.
  - cbv zeta. destruct (accmode file_info =? O_RDONLY);
      eexists _, _; split; reflexivity.
Qed.

(** X6.  When [folder_tree_open_file] fails, the open returns its negative
    result as it is, and neither multiset nor the heap of handles has
    changed; [file_info] is returned untouched. *)
Theorem open_failure_leaves_handles (w : world T) (path : string)
    (file_info : fuse_file_info) (fd0 : Z) (b : T) (f : fs_state) :
  accmode file_info = O_RDONLY \/ stringv_mem (sv_writefiles w) path = false ->
  folder_tree_open_file X (backend w) (fs w) path (flags file_info)
    (refresh_flag w path) = (fd0, b, f) ->
  fd0 < 0 ->
  exists w',
    mediafirefs_open X path file_info w = Ret (fd0, file_info) w'
    /\ sv_writefiles w' = sv_writefiles w
    /\ sv_readonlyfiles w' = sv_readonlyfiles w
    /\ heap w' = heap w.
Proof.
  intros Hok Hopen Hneg.
  rewrite (open_run w path file_info fd0 b f Hok Hopen).
  destruct (Z.ltb_spec fd0 0) as [_|Hge]; [|lia].
  eexists. split; [reflexivity|]. simpl. auto.
Qed.

(** What a successful open has done, in full. *)
Lemma open_success (w w' : world T) (path : string)
    (file_info file_info' : fuse_file_info) :
  mediafirefs_open X path file_info w = Ret (0, file_info') w' ->
  exists fd0 b f,
    folder_tree_open_file X (backend w) (fs w) path (flags file_info)
      (refresh_flag w path) = (fd0, b, f)
    /\ 0 <= fd0
    /\ (accmode file_info = O_RDONLY \/ stringv_mem (sv_writefiles w) path = false)
    /\ file_info' = set_fh file_info (fresh_ptr (heap w))
    /\ heap w' = <[fresh_ptr (heap w) :=
                    {| fd := fd0; path := path;
                       is_readonly := (accmode file_info =? O_RDONLY);
                       is_local := false |}]> (heap w)
    /\ fs w' = f
    /\ sv_readonlyfiles w'
       = (if accmode file_info =? O_RDONLY
          then stringv_add (sv_readonlyfiles w) path else sv_readonlyfiles w)
    /\ sv_writefiles w'
       = (if accmode file_info =? O_RDONLY
          then sv_writefiles w else stringv_add (sv_writefiles w) path).
Proof.
  intros Hrun.
  assert (Hok : accmode file_info = O_RDONLY
                \/ stringv_mem (sv_writefiles w) path = false).
  { destruct (Z.eq_dec (accmode file_info) O_RDONLY) as [Hm|Hm]; [left; exact Hm|].
    destruct (stringv_mem (sv_writefiles w) path) eqn:Hmem; [|right; reflexivity].
    exfalso. revert Hrun. unfold mediafirefs_open. unfold_monad. rewrite Hmem.
    destruct (Z.eqb_spec (accmode file_info) O_RDONLY); [contradiction|].
    simpl. discriminate. }
  destruct (folder_tree_open_file X (backend w) (fs w) path (flags file_info)
              (refresh_flag w path)) as [[fd0 b] f] eqn:Hopen.
  rewrite (open_run w path file_info fd0 b f Hok Hopen) in Hrun.
  exists fd0, b, f. split; [reflexivity|].
  destruct (Z.ltb_spec fd0 0) as [Hneg|Hge].
  - injection Hrun as Hfd _ _. lia.
  - cbv zeta in Hrun. split; [exact Hge|]. split; [exact Hok|].
    destruct (accmode file_info =? O_RDONLY); injection Hrun as <- <-; simpl; auto 10.
Qed.


(** X7.  A successful open returns a handle that is not NULL and was not in
    use, holding the descriptor [folder_tree_open_file] returned, the path,
    the read-only flag of the mode, and not marked local; the handles that
    were open stay as they were, and the flags of [file_info] are kept. *)
Theorem open_installs_handle (w w' : world T) (path : string)
    (file_info file_info' : fuse_file_info) :
  mediafirefs_open X path file_info w = Ret (0, file_info') w' ->
  fh file_info' <> 0
  /\ heap w !! fh file_info' = None
  /\ flags file_info' = flags file_info
  /\ heap w' !! fh file_info'
     = Some {| fd := fst (fst (folder_tree_open_file X (backend w) (fs w) path
                                (flags file_info) (refresh_flag w path)));
               path := path;
               is_readonly := (accmode file_info =? O_RDONLY);
               is_local := false |}
  /\ (forall p o, heap w !! p = Some o -> heap w' !! p = Some o).
Proof.
  intros Hrun.
  destruct (open_success _ _ _ _ _ Hrun)
    as (fd0 & b & f & Hopen & _ & _ & -> & Hheap & _).
  destruct (fresh_ptr_spec (heap w)) as [Hfresh Hnull].
  rewrite Hheap, Hopen. simpl.
  split; [exact Hnull|]. split; [exact Hfresh|]. split; [reflexivity|].
  split; [apply lookup_insert_eq|].
  intros p o Hp. rewrite lookup_insert_ne; [exact Hp|].
  intros <-. rewrite Hfresh in Hp. discriminate.
Qed.

(** X8.  A successful open adds one entry for its path to the multiset of
    its class and changes nothing else in the two multisets; after a
    successful open in a writable mode the path has exactly one writable
    entry. *)
Theorem open_counts (w w' : world T) (path : string)
    (file_info file_info' : fuse_file_info) :
  mediafirefs_open X path file_info w = Ret (0, file_info') w' ->
  (forall P,
      stringv_count (sv_readonlyfiles w') P
      = (if (accmode file_info =? O_RDONLY) && bool_decide (path = P)
         then S (stringv_count (sv_readonlyfiles w) P)
         else stringv_count (sv_readonlyfiles w) P)
      /\ stringv_count (sv_writefiles w') P
         = (if negb (accmode file_info =? O_RDONLY) && bool_decide (path = P)
            then S (stringv_count (sv_writefiles w) P)
            else stringv_count (sv_writefiles w) P))
  /\ (accmode file_info <> O_RDONLY ->
      stringv_count (sv_writefiles w') path = 1%nat).
Proof.
  intros Hrun.
  destruct (open_success _ _ _ _ _ Hrun)
    as (fd0 & b & f & _ & _ & Hok & _ & _ & _ & Hro & Hwr).
  rewrite Hro, Hwr. split.
  - intros P. rewrite !andb_if.
    destruct (accmode file_info =? O_RDONLY); simpl;
      rewrite stringv_count_add; case_bool_decide;
      [rewrite decide_True by assumption | rewrite decide_False by assumption
      |rewrite decide_True by assumption | rewrite decide_False by assumption];
      split; lia.
  - intros Hm. destruct (Z.eqb_spec (accmode file_info) O_RDONLY); [contradiction|].
    destruct Hok as [Hm'|Hmem]; [contradiction|].
    apply stringv_not_mem_count in Hmem.
    rewrite stringv_count_add. rewrite decide_True by reflexivity. lia.
Qed.

(** A create, step by step. *)
Lemma create_run (w : world T) (path : string) (mode : Z)
    (file_info : fuse_file_info) (fd0 : Z) (b : T) (f : fs_state) :
  folder_tree_tmp_open X (backend w) (fs w) = (fd0, b, f) ->
  mediafirefs_create X path mode file_info w
  = let w0 := set_fs f (set_backend b (log CallTreeTmpOpen w)) in
    if fd0 <? 0 then Ret (- EACCES, file_info) w0
    else
      Ret (0, set_fh file_info (fresh_ptr (heap w)))
          (set_writefiles (stringv_add (sv_writefiles w) path)
             (set_heap (<[fresh_ptr (heap w) :=
                           {| fd := fd0; path := path; is_readonly := false;
                              is_local := true |}]> (heap w)) w0)).
Proof.
  intros Htmp. unfold mediafirefs_create. unfold_monad. rewrite Htmp. simpl.
  destruct (fd0 <? 0); reflexivity.
Qed.

(** X9.  A create is never turned down because of the handles that are
    open: its result depends on [folder_tree_tmp_open] alone.  With a
    negative descriptor it returns [-EACCES] and multisets and handles are
    as before; otherwise it returns 0, the path has one more writable
    entry, the read-only multiset is as before, and the new handle holds
    the descriptor and the path and is marked local and not read-only. *)
Theorem create_depends_on_tmp_open_only (w : world T) (path : string) (mode : Z)
    (file_info : fuse_file_info) :
  let fd0 := fst (fst (folder_tree_tmp_open X (backend w) (fs w))) in
  exists r file_info' w',
    mediafirefs_create X path mode file_info w = Ret (r, file_info') w'
    /\ sv_readonlyfiles w' = sv_readonlyfiles w
    /\ (if fd0 <? 0
        then r = - EACCES /\ file_info' = file_info
             /\ sv_writefiles w' = sv_writefiles w /\ heap w' = heap w
        else r = 0
             /\ stringv_count (sv_writefiles w') path
                = S (stringv_count (sv_writefiles w) path)
             /\ heap w !! fh file_info' = None
             /\ heap w' !! fh file_info'
                = Some {| fd := fd0; path := path; is_readonly := false;
                          is_local := true |}).
Proof.
  destruct (folder_tree_tmp_open X (backend w) (fs w)) as [[fd0 b] f] eqn:Htmp.
  simpl. rewrite (create_run w path mode file_info fd0 b f Htmp). cbv zeta.
  destruct (fd0 <? 0).
  - eexists _, _, _. split; [reflexivity|]. simpl. auto.
  - eexists _, _, _. split; [reflexivity|]. simpl.
    split; [reflexivity|]. split; [reflexivity|].
    split; [rewrite stringv_count_add, decide_True by reflexivity; lia|].
    split; [apply fresh_ptr_spec | apply lookup_insert_eq].
Qed.

(** A release whose entry is missing, or is there more than once, ends
    the process. *)
Lemma release_exits_aux (fuel : nat) (p : string)
    (file_info : fuse_file_info) (w : world T) (o : mediafirefs_openfile) :
  heap w !! fh file_info = Some o ->
  (if is_readonly o
   then stringv_count (sv_readonlyfiles w) (path o) = 0%nat
   else stringv_count (sv_writefiles w) (path o) <> 1%nat) ->
  mediafirefs_release X fuel p file_info w = Exit 1.
Proof.
  intros Ho Hcount. unfold mediafirefs_release. unfold_monad. rewrite Ho.
  destruct (is_readonly o).
  - pose proof (stringv_del_found (sv_readonlyfiles w) (path o)) as Hf.
    destruct (stringv_del (sv_readonlyfiles w) (path o)) as [r0 sv]. simpl in Hf.
    destruct (Z.eqb_spec r0 0) as [Hr0|_]; [|reflexivity].
    apply Hf in Hr0. apply stringv_mem_count in Hr0. lia.
  - pose proof (stringv_del_found (sv_writefiles w) (path o)) as Hf.
    pose proof (stringv_count_del (sv_writefiles w) (path o) (path o)) as Hc.
    destruct (stringv_del (sv_writefiles w) (path o)) as [r0 sv].
    simpl in Hf, Hc.
    destruct (Z.eqb_spec r0 0) as [Hr0|_]; [|reflexivity]. simpl.
    rewrite decide_True in Hc by exact Hr0.
    rewrite decide_True in Hc by reflexivity.
    apply Hf in Hr0. apply stringv_mem_count in Hr0.
    assert (Hmem : stringv_mem sv (path o) = true)
      by (apply stringv_mem_count; lia).
    rewrite Hmem. reflexivity.
Qed.




(** A release of a read-only handle whose path has a read-only entry, step
    by step: nothing but local bookkeeping. *)
Lemma release_readonly_run (fuel : nat) (p : string) (file_info : fuse_file_info)
    (w : world T) (o : mediafirefs_openfile) :
  heap w !! fh file_info = Some o ->
  is_readonly o = true ->
  (0 < stringv_count (sv_readonlyfiles w) (path o))%nat ->
  mediafirefs_release X fuel p file_info w
  = Ret 0 (set_heap (delete (fh file_info) (heap w))
             (set_fs (close (fs w) (fd o))
                (set_readonlyfiles (snd (stringv_del (sv_readonlyfiles w) (path o))) w))).
Proof.
  intros Ho Hro Hcount. unfold mediafirefs_release. unfold_monad.
  rewrite Ho, Hro.
  pose proof (stringv_del_found (sv_readonlyfiles w) (path o)) as Hf.
  destruct (stringv_del (sv_readonlyfiles w) (path o)) as [r0 sv]. simpl in Hf.
  assert (Hr0 : r0 = 0) by (apply Hf; apply stringv_mem_count; exact Hcount).
  subst r0. reflexivity.
Qed.

(** X11.  The release of a read-only handle whose path has a read-only entry
    returns 0 without any call to the tree or the remote, for any fuel: the
    backend state and the call log are as before, the writable multiset is
    as before, the path has one read-only entry less, the descriptor is
    closed and the handle is freed. *)
Theorem release_readonly_is_local (fuel : nat) (p : string)
    (file_info : fuse_file_info) (w : world T) (o : mediafirefs_openfile) :
  heap w !! fh file_info = Some o ->
  is_readonly o = true ->
  (0 < stringv_count (sv_readonlyfiles w) (path o))%nat ->
  exists w',
    mediafirefs_release X fuel p file_info w = Ret 0 w'
    /\ backend w' = backend w /\ calls w' = calls w
    /\ sv_writefiles w' = sv_writefiles w
    /\ S (stringv_count (sv_readonlyfiles w') (path o))
       = stringv_count (sv_readonlyfiles w) (path o)
    /\ (forall P, P <> path o ->
          stringv_count (sv_readonlyfiles w') P = stringv_count (sv_readonlyfiles w) P)
    /\ fdt (fs w') !! fd o = None
    /\ heap w' !! fh file_info = None.
Proof.
  intros Ho Hro Hcount.
  rewrite (release_readonly_run fuel p file_info w o Ho Hro Hcount).
  eexists. split; [reflexivity|]. simpl.
  assert (Hdel : fst (stringv_del (sv_readonlyfiles w) (path o)) = 0)
    by (apply stringv_del_found; apply stringv_mem_count; exact Hcount).
  repeat split.
  - rewrite stringv_count_del, decide_True by exact Hdel.
    rewrite decide_True by reflexivity. lia.
  - intros P HP. rewrite stringv_count_del, decide_True by exact Hdel.
    rewrite decide_False by congruence. lia.
  - apply lookup_delete_eq.
  - apply lookup_delete_eq.
Qed.

(** X12.  Open and release undo each other on the bookkeeping: after a
    successful read-only open, the release of the handle it returned
    returns 0 without a call to the backend, and both multisets (as
    multisets) and the heap of handles are what they were before the
    open. *)
Theorem open_release_restores (w w1 : world T) (path0 : string)
    (file_info file_info' : fuse_file_info) (fuel : nat) (p : string) :
  accmode file_info = O_RDONLY ->
  mediafirefs_open X path0 file_info w = Ret (0, file_info') w1 ->
  exists w2,
    mediafirefs_release X fuel p file_info' w1 = Ret 0 w2
    /\ heap w2 = heap w
    /\ (forall P,
          stringv_count (sv_readonlyfiles w2) P = stringv_count (sv_readonlyfiles w) P
          /\ stringv_count (sv_writefiles w2) P = stringv_count (sv_writefiles w) P)
    /\ backend w2 = backend w1 /\ calls w2 = calls w1.
Proof.
  intros Hmode Hopen.
  destruct (open_success _ _ _ _ _ Hopen)
    as (fd0 & b & f & _ & _ & _ & -> & Hheap & _ & Hro & Hwr).
  rewrite Hmode in *. change (O_RDONLY =? O_RDONLY) with true in *.
  set (o := {| fd := fd0; path := path0; is_readonly := true; is_local := false |}) in *.
  assert (Ho : heap w1 !! fh (set_fh file_info (fresh_ptr (heap w))) = Some o)
    by (simpl; rewrite Hheap; apply lookup_insert_eq).
  assert (Hcount : (0 < stringv_count (sv_readonlyfiles w1) (path o))%nat).
  { simpl. rewrite Hro, stringv_count_add, decide_True by reflexivity. lia. }
  rewrite (release_readonly_run fuel p _ w1 o Ho eq_refl Hcount).
  eexists. split; [reflexivity|]. simpl.
  assert (Hdel : fst (stringv_del (sv_readonlyfiles w1) path0) = 0)
    by (apply stringv_del_found; apply stringv_mem_count; exact Hcount).
  repeat split.
  - rewrite Hheap. apply delete_insert_id. apply fresh_ptr_spec.
  - rewrite stringv_count_del, decide_True by exact Hdel.
    rewrite Hro, stringv_count_add. destruct (decide (path0 = P)); lia.
  - rewrite Hwr. reflexivity.
Qed.

(** More fuel does not change what the polling loop returns. *)
Lemma poll_fuel_monotone (fuel k : nat) (key : string) (w w' : world T)
    (r : option Z) :
  poll_for_completion X fuel key w = Ret r w' ->
  poll_for_completion X (fuel + k) key w = Ret r w'.
Proof.
  revert w. induction fuel as [|fuel IH]; intros w; simpl; [discriminate|].
  unfold bind, mfconn_api_upload_poll_uploadM.
  destruct (mfconn_api_upload_poll_upload X _ _) as [[[retval status] fe] b]; simpl.
  destruct (retval =? 0); simpl; [|auto].
  destruct (status =? 99); simpl; [auto|]. apply IH.
Qed.

(** The fuel only bounds the number of polls: a release that returns with
    some fuel returns the same value and leaves the same state with any
    larger fuel. *)
Lemma release_fuel_monotone (fuel k : nat) (p : string)
    (file_info : fuse_file_info) (w w' : world T) (r : Z) :
  mediafirefs_release X fuel p file_info w = Ret r w' ->
  mediafirefs_release X (fuel + k) p file_info w = Ret r w'.
Proof.
  unfold mediafirefs_release. unfold_monad.
  destruct (heap w !! fh file_info) as [o|]; [|discriminate].
  destruct (is_readonly o); [auto|].
  destruct (stringv_del (sv_writefiles w) (path o)) as [r0 sv].
  destruct (negb (r0 =? 0)); [auto|]. simpl.
  destruct (stringv_mem sv (path o)); [auto|].
  destruct (is_local o); simpl; [|auto].
  destruct (file_content (fs w) (fd o)) as [content|]; [|auto]. simpl.
  destruct (folder_tree_path_get_key X _ _) as [key b1]; simpl.
  destruct (mfconn_api_upload_simple X _ _ _ _) as [[retval ukey] b2]; simpl.
  destruct ukey as [ukey|]; [|auto].
  destruct (negb (retval =? 0)); [auto|].
  match goal with
  | |- context [poll_for_completion X fuel ukey ?w0] =>
    destruct (poll_for_completion X fuel ukey w0) as [v w1| | |] eqn:Hpoll;
      try discriminate;
      rewrite (poll_fuel_monotone fuel k ukey w0 w1 v Hpoll)
  end.
  auto.
Qed.

(** X13.  Every release that returns, with whatever value, has released what
    the handle held: the handle is freed, its descriptor is closed, and the
    path of the handle has exactly one entry less in the multiset of the
    handle's class, while the other multiset is unchanged. *)
Theorem release_always_releases (fuel : nat) (p : string)
    (file_info : fuse_file_info) (w w' : world T) (r : Z) :
  mediafirefs_release X fuel p file_info w = Ret r w' ->
  exists o,
    heap w !! fh file_info = Some o
    /\ heap w' !! fh file_info = None
    /\ fdt (fs w') !! fd o = None
    /\ (if is_readonly o
        then S (stringv_count (sv_readonlyfiles w') (path o))
             = stringv_count (sv_readonlyfiles w) (path o)
             /\ sv_writefiles w' = sv_writefiles w
        else S (stringv_count (sv_writefiles w') (path o))
             = stringv_count (sv_writefiles w) (path o)
             /\ stringv_count (sv_writefiles w') (path o) = 0%nat
             /\ sv_readonlyfiles w' = sv_readonlyfiles w).
Proof.
  intros Hrel.
  destruct (release_effect X _ _ _ _ _ _ Hrel) as (o & Ho & Hheap & Hfs & Hsv).
  exists o. split; [exact Ho|].
  split; [rewrite Hheap; apply lookup_delete_eq|].
  split; [rewrite Hfs; simpl; apply lookup_delete_eq|].
  destruct (is_readonly o).
  - destruct Hsv as (Hdel & -> & ->). split; [|reflexivity].
    pose proof (proj1 (stringv_del_found _ _) Hdel) as Hmem.
    apply stringv_mem_count in Hmem.
    rewrite stringv_count_del, decide_True by exact Hdel.
    rewrite decide_True by reflexivity. lia.
  - destruct Hsv as (Hdel & Hw & Hmem' & ->).
    apply stringv_not_mem_count in Hmem'. rewrite Hw in *.
    split; [|split; [exact Hmem' | reflexivity]].
    pose proof (proj1 (stringv_del_found _ _) Hdel) as Hmem.
    apply stringv_mem_count in Hmem.
    rewrite stringv_count_del, decide_True by exact Hdel.
    rewrite decide_True by reflexivity. lia.
Qed.


(** The polling loop never ends the process or faults, and appends only
    polls of its upload key to the call log, at most one per unit of
    fuel. *)
Lemma poll_calls (fuel : nat) (key : string) (w : world T) :
  exists (r : option (option Z)) (w' : world T) (n : nat),
    poll_for_completion X fuel key w
    = match r with Some v => Ret v w' | None => Spin w' end
    /\ calls w' = calls w ++ replicate n (CallUploadPoll key)
    /\ (n <= fuel)%nat.
Proof.
  revert w. induction fuel as [|fuel IH]; intros w; simpl.
  - exists None, w, 0%nat. simpl. rewrite app_nil_r. auto.
  - unfold bind, mfconn_api_upload_poll_uploadM.
    destruct (mfconn_api_upload_poll_upload X _ _) as [[[retval status] fe] b]; simpl.
    destruct (retval =? 0); simpl.
    + destruct (status =? 99); simpl.
      * eexists (Some None), _, 1%nat. split; [reflexivity|]. simpl. split; [reflexivity | lia].
      * destruct (IH (set_backend b (log (CallUploadPoll key) w)))
          as (r & w' & n & Hrun & Hcalls & Hn).
        exists r, w', (S n). split; [exact Hrun|]. split; [|lia].
        rewrite Hcalls. simpl. rewrite <- app_assoc. reflexivity.
    + eexists (Some (Some (-1))), _, 1%nat. split; [reflexivity|].
      simpl. split; [reflexivity | lia].
Qed.

(** X14.  When a release terminates the process.  For a handle that is
    allocated, [mediafirefs_release] ends the process exactly when the path
    of a read-only handle has no read-only entry, or the path of a writable
    handle does not have exactly one writable entry; the status is then 1,
    and nothing has been closed, freed or uploaded.  No failure of the tree
    or of the remote ends the process. *)
Theorem release_exits_without_single_entry (fuel : nat) (p : string)
    (file_info : fuse_file_info) (w : world T) (o : mediafirefs_openfile)
    (status : Z) :
  heap w !! fh file_info = Some o ->
  mediafirefs_release X fuel p file_info w = Exit status
  <-> status = 1
      /\ (if is_readonly o
          then stringv_count (sv_readonlyfiles w) (path o) = 0%nat
          else stringv_count (sv_writefiles w) (path o) <> 1%nat).
Proof.
  intros Ho. split.
  - unfold mediafirefs_release. unfold_monad. rewrite Ho.
    destruct (is_readonly o).
    + pose proof (stringv_del_found (sv_readonlyfiles w) (path o)) as Hf.
      destruct (stringv_del (sv_readonlyfiles w) (path o)) as [r0 sv]. simpl in Hf.
      destruct (Z.eqb_spec r0 0) as [Hr0|Hr0]; simpl; [discriminate|].
      intros H. injection H as <-. split; [reflexivity|].
      destruct (stringv_mem (sv_readonlyfiles w) (path o)) eqn:Hmem.
      * exfalso. apply Hr0. apply Hf. reflexivity.
      * apply stringv_not_mem_count. exact Hmem.
    + pose proof (stringv_del_found (sv_writefiles w) (path o)) as Hf.
      pose proof (stringv_count_del (sv_writefiles w) (path o) (path o)) as Hc.
      destruct (stringv_del (sv_writefiles w) (path o)) as [r0 sv].
      simpl in Hf, Hc.
      destruct (Z.eqb_spec r0 0) as [Hr0|Hr0]; simpl.
      * rewrite decide_True in Hc by exact Hr0.
        rewrite decide_True in Hc by reflexivity.
        destruct (stringv_mem sv (path o)) eqn:Hmem.
        -- intros H. injection H as <-. split; [reflexivity|].
           apply stringv_mem_count in Hmem. lia.
        -- destruct (is_local o); simpl.
           ++ destruct (file_content (fs w) (fd o)) as [content|]; [|discriminate].
              simpl.
              destruct (folder_tree_path_get_key X _ _) as [key b1]; simpl.
              destruct (mfconn_api_upload_simple X _ _ _ _) as [[retval ukey] b2]; simpl.
              destruct ukey as [ukey|]; [|discriminate].
              destruct (negb (retval =? 0)); [discriminate|].
              match goal with
              | |- context [poll_for_completion X fuel ukey ?w0] =>
                destruct (poll_calls fuel ukey w0) as (r & w1 & n & -> & _)
              end.
              destruct r as [[v|]|]; discriminate.
           ++ destruct (folder_tree_upload_patch X _ _ _) as [rv b1]; simpl.
              destruct (negb (rv =? 0)); discriminate.
      * intros H. injection H as <-. split; [reflexivity|].
        destruct (stringv_mem (sv_writefiles w) (path o)) eqn:Hmem.
        -- exfalso. apply Hr0. apply Hf. reflexivity.
        -- apply stringv_not_mem_count in Hmem. lia.
  - intros [-> Hcount]. exact (release_exits_aux fuel p file_info w o Ho Hcount).
Qed.

(** X15.  The release of a handle marked local uploads what is staged: with
    one writable entry for the path and the descriptor open, the first two
    calls are the lookup of the folder of [dirname(path)] and the simple
    upload of the whole staged content, from its first byte, under
    [basename(path)], with whatever key the lookup returned; the release
    then returns or is still polling, it neither faults nor ends the
    process. *)
Theorem release_uploads_staged_bytes (fuel : nat) (p : string)
    (file_info : fuse_file_info) (w : world T) (o : mediafirefs_openfile)
    (content : list byte) :
  heap w !! fh file_info = Some o ->
  is_readonly o = false ->
  is_local o = true ->
  stringv_count (sv_writefiles w) (path o) = 1%nat ->
  file_content (fs w) (fd o) = Some content ->
  let key := fst (folder_tree_path_get_key X (backend w) (dirname (path o))) in
  exists (r : option Z) (w' : world T) (rest : list call),
    mediafirefs_release X fuel p file_info w
    = match r with Some v => Ret v w' | None => Spin w' end
    /\ calls w'
       = calls w ++ [CallTreePathGetKey (dirname (path o));
                     CallUploadSimple key content (basename (path o))] ++ rest.
Proof.
  intros Ho Hro Hlocal Hcount Hcontent key. subst key.
  unfold mediafirefs_release. unfold_monad.
  rewrite Ho, Hro.
  destruct (stringv_del_single _ _ Hcount) as (sv & Hdel & Hnot).
  rewrite Hdel. simpl. rewrite Hnot, Hlocal. simpl. rewrite Hcontent. simpl.
  destruct (folder_tree_path_get_key X _ _) as [key b1]; simpl.
  destruct (mfconn_api_upload_simple X _ _ _ _) as [[retval ukey] b2]; simpl.
  destruct ukey as [ukey|];
    [|eexists (Some _), _, []; split; [reflexivity|]; simpl;
      rewrite <- app_assoc; reflexivity].
  destruct (negb (retval =? 0));
    [eexists (Some _), _, []; split; [reflexivity|]; simpl;
     rewrite <- app_assoc; reflexivity|].
  match goal with
  | |- context [poll_for_completion X fuel ukey ?w0] =>
    destruct (poll_calls fuel ukey w0) as (r & w1 & n & -> & Hcalls & _)
  end.
  simpl in Hcalls.
  destruct r as [[v|]|].
  - eexists (Some v), w1, _. split; [reflexivity|]. rewrite Hcalls.
    rewrite <- !app_assoc. reflexivity.
  - eexists (Some 0), _, _. split; [reflexivity|]. simpl. rewrite Hcalls.
    rewrite <- !app_assoc. simpl. reflexivity.
  - eexists None, w1, _. split; [reflexivity|]. rewrite Hcalls.
    rewrite <- !app_assoc. reflexivity.
Qed.

(** [pread] after [pwrite] on descriptors of one file. *)
Lemma pread_after_pwrite (fs0 : fs_state) (fd1 fd2 : Z) (i : nat)
    (buf : list byte) (off : Z) :
  fdt fs0 !! fd1 = Some i ->
  fdt fs0 !! fd2 = Some i ->
  0 <= off ->
  fst (pwrite fs0 fd1 buf off) = Z.of_nat (length buf)
  /\ pread (snd (pwrite fs0 fd1 buf off)) fd2 (length buf) off
     = (Z.of_nat (length buf), buf).
Proof.
  intros H1 H2 Hoff. unfold pwrite, pread, file_content. rewrite H1.
  destruct (Z.ltb_spec off 0) as [Hneg|_]; [lia|].
  destruct buf as [|c buf].
  - simpl. rewrite H2. destruct (Z.ltb_spec off 0) as [Hneg|_]; [lia|]. auto.
  - set (bytes := c :: buf). simpl fst. simpl snd. split; [reflexivity|].
    simpl fdt. simpl inodes. rewrite H2, lookup_insert_eq. simpl default.
    destruct (Z.ltb_spec off 0) as [Hneg|_]; [lia|].
    set (old := default [] (inodes fs0 !! i)).
    assert (Hlen : length (take (Z.to_nat off) (old ++ replicate (Z.to_nat off) x00))
                   = Z.to_nat off).
    { rewrite length_take, length_app, length_replicate. lia. }
    rewrite drop_app_length' by (symmetry; exact Hlen).
    change (c :: buf ++ drop (Z.to_nat off + S (length buf)) old)
      with (bytes ++ drop (Z.to_nat off + S (length buf)) old).
    rewrite take_app_length. reflexivity.
Qed.

End Handles.

(** X16.  What is written through a handle is read back: after a write of
    [buf] at a non-negative offset, a read of as many bytes at that offset
    returns [buf], through the same handle or through any handle whose
    descriptor refers to the same staged file; the file is extended as
    needed when the offset lies behind its end. *)
Theorem write_then_read {T : Type} (w : world T) (p1 p2 : string)
    (fi1 fi2 : fuse_file_info) (o1 o2 : mediafirefs_openfile) (i : nat)
    (buf : list byte) (off : Z) :
  heap w !! fh fi1 = Some o1 ->
  heap w !! fh fi2 = Some o2 ->
  fdt (fs w) !! fd o1 = Some i ->
  fdt (fs w) !! fd o2 = Some i ->
  0 <= off ->
  exists w',
    mediafirefs_write p1 buf off fi1 w = Ret (to_int (Z.of_nat (length buf))) w'
    /\ mediafirefs_read p2 (length buf) off fi2 w'
       = Ret (to_int (Z.of_nat (length buf)), buf) w'.
Proof.
  intros H1 H2 Hf1 Hf2 Hoff.
  destruct (pread_after_pwrite (fs w) (fd o1) (fd o2) i buf off Hf1 Hf2 Hoff)
    as (Hn & Hread).
  unfold mediafirefs_write, mediafirefs_read. unfold_monad. rewrite H1.
  destruct (pwrite (fs w) (fd o1) buf off) as [n f]. simpl in *. subst n.
  eexists. split; [reflexivity|].
  cbn [heap fs set_fs]. rewrite H2. cbn [heap fs set_fs]. rewrite Hread.
  reflexivity.
Qed.

(** ** Splitting a path *)

Lemma strrchr_split_no_slash (s : string) :
  no_slash s -> strrchr_split slash s = None.
Proof.
  unfold no_slash. induction s as [|a s IH]; simpl; intros Hs; [reflexivity|].
  rewrite not_elem_of_cons in Hs. destruct Hs as [Ha Hs].
  rewrite IH by exact Hs.
  destruct (Ascii.eqb_spec a slash) as [->|_]; [congruence | reflexivity].
Qed.

Lemma strrchr_split_app (d b : string) :
  no_slash b -> strrchr_split slash (d +:+ "/" +:+ b) = Some (d, b).
Proof.
  intros Hb. induction d as [|a d IH]; simpl.
  - rewrite strrchr_split_no_slash by exact Hb. reflexivity.
  - simpl in IH. rewrite IH. reflexivity.
Qed.

Lemma ends_with_app (c : ascii) (s t : string) :
  t <> EmptyString -> ends_with c (s +:+ t) = ends_with c t.
Proof.
  intros Ht. induction s as [|a s IH]; simpl; [reflexivity|].
  rewrite IH. destruct (s +:+ t) eqn:E; [|reflexivity].
  destruct s; simpl in E; [contradiction | discriminate].
Qed.

Lemma ends_with_no_slash (s : string) : no_slash s -> ends_with slash s = false.
Proof.
  unfold no_slash. induction s as [|a s IH]; simpl; intros Hs; [reflexivity|].
  rewrite not_elem_of_cons in Hs. destruct Hs as [Ha Hs].
  destruct s as [|a' s']; [|apply IH; exact Hs].
  destruct (Ascii.eqb_spec a slash); [congruence | reflexivity].
Qed.

Lemma drop_last_app (c : ascii) (s : string) :
  drop_last (s +:+ String c EmptyString) = s.
Proof.
  induction s as [|a s IH]; simpl; [reflexivity|].
  rewrite IH. destruct (s +:+ String c "") eqn:E; [|reflexivity].
  destruct s; discriminate.
Qed.

Lemma ends_with_drop_last (c : ascii) (s : string) :
  ends_with c s = true -> s = drop_last s +:+ String c EmptyString.
Proof.
  induction s as [|a s IH]; [discriminate|].
  destruct s as [|a' s'].
  - simpl. destruct (Ascii.eqb_spec a c) as [->|]; [reflexivity | discriminate].
  - intros Hend. change (ends_with c (String a (String a' s')))
      with (ends_with c (String a' s')) in Hend.
    change (drop_last (String a (String a' s')))
      with (String a (drop_last (String a' s'))).
    change (String a (drop_last (String a' s')) +:+ String c EmptyString)
      with (String a (drop_last (String a' s') +:+ String c EmptyString)).
    f_equal. apply IH. exact Hend.
Qed.

Lemma string_append_assoc (a b c : string) : (a +:+ b) +:+ c = a +:+ (b +:+ c).
Proof.
  induction a as [|x a IH]; [reflexivity|].
  change (String x ((a +:+ b) +:+ c) = String x (a +:+ (b +:+ c))).
  f_equal. exact IH.
Qed.

Lemma strrchr_split_sound (s l r : string) :
  strrchr_split slash s = Some (l, r) -> s = l +:+ "/" +:+ r /\ no_slash r.
Proof.
  revert l. induction s as [|a s IH]; simpl; intros l; [discriminate|].
  destruct (strrchr_split slash s) as [[l' r']|] eqn:E.
  - intros H. injection H as <- <-. destruct (IH l' eq_refl) as [-> Hr].
    split; [reflexivity | exact Hr].
  - destruct (Ascii.eqb_spec a slash) as [->|_]; [|discriminate].
    intros H. injection H as <- <-. split; [reflexivity|].
    clear IH. unfold no_slash. induction s as [|a s IH]; simpl.
    + apply not_elem_of_nil.
    + simpl in E. destruct (strrchr_split slash s) as [[? ?]|]; [discriminate|].
      destruct (Ascii.eqb_spec a slash) as [->|Hne]; [discriminate|].
      rewrite not_elem_of_cons. split; [congruence | apply IH; reflexivity].
Qed.

Lemma strcmp_eq_strlen (a b : string) :
  strcmp_eq a b = true -> strlen a = strlen b.
Proof.
  unfold strcmp_eq, strlen. intros H. apply String.eqb_eq in H. congruence.
Qed.

Section Catalog.

Context {T : Type} (X : externals T).

(** [mfconn_api_folder_create] on a connection and a non-empty name, step
    by step. *)
Lemma folder_create_run (w : world T) (parent : option string) (name : string) :
  (1 <= strlen name)%nat ->
  mfconn_api_folder_create X mfconn_of_ctx parent (Some name) w
  = bind (mfconn_create_signed_getM X 0 "folder/create.php"
            (folder_create_args parent name))
         (fun api_call => bind (http_get_bufM X api_call) ret) w.
Proof.
  intros Hlen. unfold mfconn_api_folder_create, folder_create_args.
  destruct (Nat.ltb_spec (strlen name) 1) as [Hlt|_]; [lia|].
  destruct parent as [p|]; [|reflexivity].
  destruct (Nat.eqb_spec (strlen p) 13) as [H13|_]; simpl.
  - destruct (strcmp_eq p "myfiles") eqn:Hcmp; [|reflexivity].
    apply strcmp_eq_strlen in Hcmp. rewrite H13 in Hcmp. discriminate Hcmp.
  - destruct (strcmp_eq p "myfiles"); reflexivity.
Qed.

(** X17.  [mfconn_api_folder_create] with a NULL connection, a NULL name or
    an empty name returns -1 and calls nothing: the state is what it
    was. *)
Theorem folder_create_rejects (w : world T) (mfconn : mfconn_ptr)
    (parent name : option string) :
  mfconn = mfconn_NULL \/ name = None
  \/ (exists n, name = Some n /\ strlen n = 0%nat) ->
  mfconn_api_folder_create X mfconn parent name w = Ret (-1) w.
Proof.
  intros [-> | [-> | (n & -> & Hn)]].
  - reflexivity.
  - destruct mfconn; reflexivity.
  - destruct mfconn; [reflexivity|]. unfold mfconn_api_folder_create.
    rewrite Hn. reflexivity.
Qed.

(** X18.  On a connection and a non-empty name, [mfconn_api_folder_create]
    signs one call to [folder/create.php] and fetches it, and returns what
    the fetch returns.  The call names the account root (no [parent_key])
    exactly when the parent is NULL or equal to ["myfiles"]; any other
    parent is sent as [parent_key] whatever its length. *)
Theorem folder_create_request (w : world T) (parent : option string)
    (name : string) :
  (1 <= strlen name)%nat ->
  let signed := mfconn_create_signed_get X (backend w) 0 "folder/create.php"
                  (folder_create_args parent name) in
  let fetched := http_get_buf X (snd signed) (fst signed) in
  exists w',
    mfconn_api_folder_create X mfconn_of_ctx parent (Some name) w
    = Ret (fst fetched) w'
    /\ backend w' = snd fetched
    /\ calls w'
       = calls w ++ [CallSignedGet 0 "folder/create.php"
                       (folder_create_args parent name);
                     CallHttpGetBuf (fst signed)]
    /\ (folder_create_args parent name
        = "?foldername=" +:+ cstr name +:+ "&response_format=json"
        <-> parent = None \/ exists p, parent = Some p /\ cstr p = "myfiles").
Proof.
  intros Hlen signed fetched. subst signed fetched.
  rewrite (folder_create_run w parent name Hlen). unfold_monad.
  destruct (mfconn_create_signed_get X _ _ _ _) as [url b1]; simpl.
  destruct (http_get_buf X _ _) as [retval b2]; simpl.
  eexists. split; [reflexivity|]. simpl. split; [reflexivity|].
  split; [rewrite <- app_assoc; reflexivity|].
  unfold folder_create_args. destruct parent as [p|].
  - unfold strcmp_eq. destruct (String.eqb_spec (cstr p) (cstr "myfiles")) as [He|Hne].
    + split; [intros _; right; exists p; auto | reflexivity].
    + split.
      * intros H. discriminate H.
      * intros [H | (p' & Hp & Hc)]; [discriminate|].
        injection Hp as <-. contradiction.
  - split; [auto | reflexivity].
Qed.


(** X19.  [mediafirefs_mkdir] on a path [d/b] whose last component [b] is not
    empty.  The folder of [d] is looked up unless [d] is empty (a folder
    directly under the root); one folder-create call is signed for the key
    found, or for the root when [d] is empty or was not found, and fetched.
    The result is decided by what the fetch returns: 0, with a forced
    update of the tree as the last call, when it returns 0, and [-EAGAIN]
    with no update when it returns anything else. *)
Theorem mkdir_request (w : world T) (d b : string) (mode : Z) :
  no_slash b ->
  (1 <= strlen b)%nat ->
  let found := match d with
               | EmptyString => (None, backend w)
               | _ => folder_tree_path_get_key X (backend w) d
               end in
  let signed := mfconn_create_signed_get X (snd found) 0 "folder/create.php"
                  (folder_create_args (fst found) b) in
  let fetched := http_get_buf X (snd signed) (fst signed) in
  let r := if fst fetched =? 0 then 0 else - EAGAIN in
  exists w',
    mediafirefs_mkdir X (d +:+ "/" +:+ b) mode w = Ret r w'
    /\ backend w'
       = (if fst fetched =? 0 then folder_tree_update X (snd fetched) true
          else snd fetched)
    /\ calls w'
       = calls w
           ++ match d with
              | EmptyString => []
              | _ => [CallTreePathGetKey d]
              end
           ++ [CallSignedGet 0 "folder/create.php"
                 (folder_create_args (fst found) b);
               CallHttpGetBuf (fst signed)]
           ++ (if r =? 0 then [CallTreeUpdate true] else []).
Proof.
  intros Hslash Hlen found signed fetched r.
  assert (Hb : b <> EmptyString) by (intros ->; unfold strlen in Hlen; simpl in Hlen; lia).
  unfold mediafirefs_mkdir.
  destruct (d +:+ "/" +:+ b) as [|c0 s0] eqn:Hpath.
  { destruct d; discriminate Hpath. }
  rewrite <- Hpath.
  assert (Hend : ends_with slash (d +:+ "/" +:+ b) = false).
  { rewrite ends_with_app by (destruct b; [contradiction | discriminate]).
    change ("/" +:+ b) with (String slash b).
    destruct b as [|c b']; [contradiction|].
    change (ends_with slash (String slash (String c b')))
      with (ends_with slash (String c b')).
    apply ends_with_no_slash. exact Hslash. }
  rewrite Hend, (strrchr_split_app d b Hslash).
  subst r fetched signed found.
  destruct d as [|c d'].
  - unfold bind at 1. unfold ret at 1.
    unfold bind at 1. rewrite (folder_create_run w None b Hlen). unfold_monad.
    cbn [fst snd].
    destruct (mfconn_create_signed_get X _ _ _ _) as [url b1]; simpl.
    destruct (http_get_buf X _ _) as [retval b2]; simpl.
    destruct (Z.eqb_spec retval 0); simpl.
    + eexists. split; [reflexivity|]. simpl. split; [reflexivity|].
      rewrite <- !app_assoc. reflexivity.
    + eexists. split; [reflexivity|]. simpl. split; [reflexivity|].
      rewrite <- !app_assoc. reflexivity.
  - unfold bind at 1. unfold folder_tree_path_get_keyM at 1.
    destruct (folder_tree_path_get_key X (backend w) (String c d')) as [k b0]; simpl.
    unfold bind at 1.
    rewrite (folder_create_run _ k b Hlen). unfold_monad. simpl.
    destruct (mfconn_create_signed_get X _ _ _ _) as [url b1]; simpl.
    destruct (http_get_buf X _ _) as [retval b2]; simpl.
    destruct (Z.eqb_spec retval 0); simpl.
    + eexists. split; [reflexivity|]. simpl. split; [reflexivity|].
      rewrite <- !app_assoc. reflexivity.
    + eexists. split; [reflexivity|]. simpl. split; [reflexivity|].
      rewrite <- !app_assoc. reflexivity.
Qed.

(** X20.  One trailing slash makes no difference to [mediafirefs_mkdir]. *)
Theorem mkdir_trailing_slash (w : world T) (p : string) (mode : Z) :
  p <> EmptyString ->
  ends_with slash p = false ->
  mediafirefs_mkdir X (p +:+ "/") mode w = mediafirefs_mkdir X p mode w.
Proof.
  intros Hp Hend. unfold mediafirefs_mkdir.
  rewrite ends_with_app by discriminate.
  change (ends_with slash "/") with true. rewrite Hend.
  change "/" with (String slash EmptyString). rewrite drop_last_app.
  destruct p as [|c p']; [contradiction|]. reflexivity.
Qed.

(** X21.  A path without any slash, with or without one trailing slash (so
    ["/"] itself as well), makes [mediafirefs_mkdir] return [-ENOENT]
    without calling the tree or the remote: the state is what it was. *)
Theorem mkdir_without_parent_component (w : world T) (p : string) (mode : Z) :
  no_slash p ->
  mediafirefs_mkdir X (p +:+ "/") mode w = Ret (- ENOENT) w
  /\ (p <> EmptyString -> mediafirefs_mkdir X p mode w = Ret (- ENOENT) w).
Proof.
  intros Hslash.
  assert (Hplain : p <> EmptyString -> mediafirefs_mkdir X p mode w = Ret (- ENOENT) w).
  { intros Hp. unfold mediafirefs_mkdir.
    rewrite (ends_with_no_slash p Hslash), (strrchr_split_no_slash p Hslash).
    destruct p; [contradiction | reflexivity]. }
  split; [|exact Hplain].
  destruct p as [|c p'].
  - reflexivity.
  - rewrite <- Hplain by discriminate.
    unfold mediafirefs_mkdir.
    rewrite ends_with_app by discriminate.
    change (ends_with slash "/") with true.
    rewrite (ends_with_no_slash _ Hslash).
    change "/" with (String slash EmptyString). rewrite drop_last_app.
    reflexivity.
Qed.


(** X22.  [mediafirefs_getattr] always updates the tree (not forced) and then
    asks it for the attributes, in this order and nothing else, and leaves
    multisets, handles and staged files alone.  It returns the answer of
    the tree, return value and record, unless the lookup failed for a path
    that is in the writable multiset. *)
Theorem getattr_passes_tree_answer (w : world T) (path : string) (stbuf : stat) :
  exists r w',
    mediafirefs_getattr X path stbuf w = Ret r w'
    /\ calls w' = calls w ++ [CallTreeUpdate false; CallTreeGetattr path]
    /\ sv_writefiles w' = sv_writefiles w
    /\ sv_readonlyfiles w' = sv_readonlyfiles w
    /\ heap w' = heap w /\ fs w' = fs w
    /\ (catalog_lookup X w path stbuf = 0
        \/ stringv_mem (sv_writefiles w) path = false ->
        r = fst (folder_tree_getattr X (folder_tree_update X (backend w) false)
                   path stbuf)).
Proof.
  unfold catalog_lookup, mediafirefs_getattr. unfold_monad. simpl.
  destruct (folder_tree_getattr X _ _ _) as [[retval st] b]; simpl.
  destruct (negb (retval =? 0) && stringv_mem (sv_writefiles w) path) eqn:Hfall.
  - eexists _, _. split; [reflexivity|]. simpl.
    split; [rewrite <- app_assoc; reflexivity|]. repeat (split; [reflexivity|]).
    apply andb_true_iff in Hfall. destruct Hfall as [Hne Hmem].
    intros [H0 | Hno]; [|congruence].
    subst retval. discriminate Hne.
  - eexists _, _. split; [reflexivity|]. simpl.
    split; [rewrite <- app_assoc; reflexivity|]. repeat (split; [reflexivity|]).
    intros _. reflexivity.
Qed.

(** [mfconn_api_folder_create] touches the backend and the call log
    only. *)
Lemma folder_create_frame (w w' : world T) (mfconn : mfconn_ptr)
    (parent name : option string) (r : Z) :
  mfconn_api_folder_create X mfconn parent name w = Ret r w' ->
  sv_writefiles w' = sv_writefiles w /\ sv_readonlyfiles w' = sv_readonlyfiles w
  /\ heap w' = heap w /\ fs w' = fs w.
Proof.
  unfold mfconn_api_folder_create.
  destruct mfconn; [intros H; injection H as <- <-; auto|].
  destruct name as [n|]; [|intros H; injection H as <- <-; auto].
  destruct (strlen n <? 1)%nat; [intros H; injection H as <- <-; auto|].
  match goal with
  | |- context [match ?p with Some _ => _ | None => _ end] => destruct p
  end; unfold_monad;
    destruct (mfconn_create_signed_get X _ _ _ _) as [url b1]; simpl;
    destruct (http_get_buf X _ _) as [retval b2]; simpl;
    intros H; injection H as <- <-; auto.
Qed.

(** X23.  [mediafirefs_mkdir] never touches the open-handle bookkeeping:
    when it returns, both multisets, the heap of handles and the staged
    files with their descriptors are what they were. *)
Theorem mkdir_keeps_handles (w w' : world T) (path : string) (mode r : Z) :
  mediafirefs_mkdir X path mode w = Ret r w' ->
  sv_writefiles w' = sv_writefiles w /\ sv_readonlyfiles w' = sv_readonlyfiles w
  /\ heap w' = heap w /\ fs w' = fs w.
Proof.
  unfold mediafirefs_mkdir. destruct path as [|c p]; [discriminate|].
  destruct (strrchr_split slash _) as [[d b]|];
    [|intros H; injection H as <- <-; auto].
  unfold bind at 1.
  assert (Hkey : forall w0 k w1,
             match d with
             | EmptyString => ret None
             | _ => folder_tree_path_get_keyM X d
             end w0 = Ret k w1 ->
             sv_writefiles w1 = sv_writefiles w0
             /\ sv_readonlyfiles w1 = sv_readonlyfiles w0
             /\ heap w1 = heap w0 /\ fs w1 = fs w0).
  { intros w0 k w1. destruct d; unfold_monad.
    - intros H; injection H as <- <-; auto.
    - destruct (folder_tree_path_get_key X _ _) as [k' b0].
      intros H; injection H as <- <-; auto. }
  destruct (match d with
            | EmptyString => ret None
            | _ => folder_tree_path_get_keyM X d
            end w) as [k w1| | |] eqn:Hk; try discriminate.
  apply Hkey in Hk. destruct Hk as (Hw1 & Hr1 & Hh1 & Hf1).
  unfold bind at 1.
  destruct (mfconn_api_folder_create X mfconn_of_ctx k (Some b) w1)
    as [rv w2| | |] eqn:Hfc; try discriminate.
  apply folder_create_frame in Hfc. destruct Hfc as (Hw2 & Hr2 & Hh2 & Hf2).
  unfold_monad. destruct (negb (rv =? 0)); intros H; injection H as <- <-; simpl;
    rewrite ?Hw2, ?Hr2, ?Hh2, ?Hf2, ?Hw1, ?Hr1, ?Hh1, ?Hf1; auto.
Qed.

End Catalog.

Section Removing.

Context {T : Type} (X : externals T) (D : deletions T).

(** X24.  [mediafirefs_rmdir] and [mediafirefs_unlink] look the path up,
    delete by the key found and force an update of the tree.  They return
    [-ENOENT] for a path that does not resolve, without a delete call and
    without an update; [-EAGAIN] when the delete call fails, without an
    update; 0 otherwise, after the update.  The open-handle bookkeeping is
    never touched. *)
Theorem removal_outcome (w : world T) (path : string) :
  let found := folder_tree_path_get_key X (backend w) path in
  (exists r w',
      mediafirefs_rmdir X D path w = Ret r w'
      /\ r = match fst found with
             | None => - ENOENT
             | Some key =>
               if fst (mfconn_api_folder_delete D (snd found) key) =? 0
               then 0 else - EAGAIN
             end
      /\ (fst found = None -> backend w' = snd found)
      /\ calls w' = calls w ++ [CallTreePathGetKey path]
                      ++ (if r =? 0 then [CallTreeUpdate true] else [])
      /\ sv_writefiles w' = sv_writefiles w
      /\ sv_readonlyfiles w' = sv_readonlyfiles w
      /\ heap w' = heap w /\ fs w' = fs w)
  /\ (exists r w',
      mediafirefs_unlink X D path w = Ret r w'
      /\ r = match fst found with
             | None => - ENOENT
             | Some key =>
               if fst (mfconn_api_file_delete D (snd found) key) =? 0
               then 0 else - EAGAIN
             end
      /\ (fst found = None -> backend w' = snd found)
      /\ calls w' = calls w ++ [CallTreePathGetKey path]
                      ++ (if r =? 0 then [CallTreeUpdate true] else [])
      /\ sv_writefiles w' = sv_writefiles w
      /\ sv_readonlyfiles w' = sv_readonlyfiles w
      /\ heap w' = heap w /\ fs w' = fs w).
Proof.
  intros found. subst found.
  unfold mediafirefs_rmdir, mediafirefs_unlink,
    mfconn_api_folder_deleteM, mfconn_api_file_deleteM.
  unfold_monad.
  destruct (folder_tree_path_get_key X (backend w) path) as [[key|] b1]; simpl.
  - split.
    + destruct (mfconn_api_folder_delete D b1 key) as [rv b2]; simpl.
      destruct (Z.eqb_spec rv 0); simpl;
        eexists _, _; (split; [reflexivity|]); simpl;
        (split; [reflexivity|]); (split; [discriminate|]);
        rewrite <- ?app_assoc; auto 10.
    + destruct (mfconn_api_file_delete D b1 key) as [rv b2]; simpl.
      destruct (Z.eqb_spec rv 0); simpl;
        eexists _, _; (split; [reflexivity|]); simpl;
        (split; [reflexivity|]); (split; [discriminate|]);
        rewrite <- ?app_assoc; auto 10.
  - split; eexists _, _; (split; [reflexivity|]); simpl;
      rewrite ?app_nil_r; auto 10.
Qed.

End Removing.

(** ** The direct download *)

Section Download.

Context {D : Type} (http_get_file : D -> string -> string -> Z * D)
        (stat_size : D -> string -> option Z).

(** X25.  [file_download_direct] returns -1 and transfers nothing, leaving
    the disk as it was, when the file or the directory is NULL, when the
    file has no direct link, and when the file has an empty name. *)
Theorem file_download_direct_refuses (file : option File.mffile)
    (local_dir : option string) (disk : D) :
  file = None \/ local_dir = None \/ File.file_get_direct_link file = None
  \/ File.file_get_name file = Some EmptyString ->
  file_download_direct http_get_file stat_size file local_dir disk
  = Downloaded (-1) disk.
Proof.
  intros H. unfold file_download_direct.
  destruct file as [f|]; [|reflexivity].
  destruct local_dir as [dir|]; [|reflexivity].
  destruct (File.file_get_direct_link (Some f)) as [url|]; [|reflexivity].
  destruct H as [H | [H | [H | H]]]; try discriminate H.
  rewrite H. reflexivity.
Qed.

(** X26.  For a file with a direct link and a non-empty name and a non-empty
    directory, [file_download_direct] transfers the link to the directory
    followed by the name, with a slash put in between only when the
    directory does not end in one, and returns the size that [stat] then
    reports for that path, or -1 when [stat] fails: the return value of the
    transfer itself has no influence on the result. *)
Theorem file_download_direct_result (f : File.mffile) (url dir : string)
    (disk : D) :
  File.direct_link f = Some url ->
  (1 <= strlen (string_at (File.name f)))%nat ->
  cstr dir <> EmptyString ->
  let file_path := download_path (cstr dir) (string_at (File.name f)) in
  let disk' := snd (http_get_file disk url file_path) in
  file_download_direct http_get_file stat_size (Some f) (Some dir) disk
  = Downloaded (default (-1) (stat_size disk' file_path)) disk'.
Proof.
  intros Hurl Hname Hdir file_path disk'. subst file_path disk'.
  unfold file_download_direct, download_path. simpl. rewrite Hurl.
  destruct (Nat.ltb_spec (strlen (string_at (File.name f))) 1) as [Hlt|_]; [lia|].
  destruct (cstr dir) as [|c dir'] eqn:Hd; [contradiction|].
  assert (Hcstr : cstr (string_at (File.name f)) = string_at (File.name f))
    by (unfold string_at; apply cstr_idem).
  rewrite Hcstr.
  assert (Hpath : (if ends_with slash (String c dir')
                   then String c dir' +:+ string_at (File.name f)
                   else String c dir' +:+ "/" +:+ string_at (File.name f))
                  = (if ends_with slash (String c dir')
                     then drop_last (String c dir') else String c dir')
                      +:+ "/" +:+ string_at (File.name f)).
  { destruct (ends_with slash (String c dir')) eqn:Hend; [|reflexivity].
    rewrite (ends_with_drop_last slash _ Hend) at 1.
    rewrite string_append_assoc. reflexivity. }
  rewrite <- Hpath. clear Hpath.
  change (ends_with slash (String c dir'))
    with (match dir' with
          | EmptyString => Ascii.eqb c "/"
          | String _ _ => ends_with "/" dir'
          end).
  destruct (http_get_file disk url _) as [retval disk1]; simpl.
  destruct (stat_size disk1 _); reflexivity.
Qed.

End Download.

(** ** The properties of the remaining code at concrete inputs *)

Section MoreRuns.

Import Reference Examples Cases.

Lemma sub_no_slash : no_slash "sub".
Proof.
  unfold no_slash. simpl. intros H.
  repeat (apply elem_of_cons in H as [H|H]; [discriminate H|]).
  inversion H.
Qed.

Lemma open_refreshes_only_without_handles_witness :
  exists r w',
    mediafirefs_open X "/f" (info O_RDONLY) f_writable = Ret r w'
    /\ calls w'
       = calls f_writable ++ [CallTreeOpenFile "/f" O_RDONLY false].
Proof.
  apply (open_refreshes_only_without_handles X f_writable "/f" (info O_RDONLY)).
  left. vm_compute. reflexivity.
Defined.

Lemma open_failure_leaves_handles_witness :
  exists w',
    mediafirefs_open X "/nope" (info O_RDWR) f_readonly
    = Ret (- ENOENT, info O_RDWR) w'
    /\ sv_writefiles w' = sv_writefiles f_readonly
    /\ sv_readonlyfiles w' = sv_readonlyfiles f_readonly
    /\ heap w' = heap f_readonly.
Proof.
  apply (open_failure_leaves_handles X f_readonly "/nope" (info O_RDWR) (- ENOENT)
           (backend f_readonly) (fs f_readonly)).
  - right. vm_compute. reflexivity.
  - vm_compute. reflexivity.
  - vm_compute. reflexivity.
Defined.

Lemma open_installs_handle_witness :
  fh f_handle <> 0
  /\ heap mounted !! fh f_handle = None
  /\ flags f_handle = flags (info O_RDONLY)
  /\ heap f_readonly !! fh f_handle
     = Some {| fd := 0; path := "/f"; is_readonly := true; is_local := false |}
  /\ (forall p o, heap mounted !! p = Some o -> heap f_readonly !! p = Some o).
Proof.
  apply (open_installs_handle X mounted f_readonly "/f" (info O_RDONLY) f_handle).
  vm_compute. reflexivity.
Defined.

Lemma open_counts_witness :
  stringv_count (sv_writefiles f_writable) "/f" = 1%nat.
Proof.
  apply (proj2 (open_counts X mounted f_writable "/f" (info O_RDWR) f_handle_rw
                  ltac:(vm_compute; reflexivity))).
  vm_compute. lia.
Defined.

Lemma release_exits_without_single_entry_witness :
  mediafirefs_release X 3 "/g" g_handle g_twice = Exit 1.
Proof.
  apply (proj2 (release_exits_without_single_entry X 3 "/g" g_handle g_twice
                  {| fd := 0; path := "/g"; is_readonly := false; is_local := true |}
                  1 ltac:(vm_compute; reflexivity))).
  split; [reflexivity | vm_compute; lia].
Defined.


Lemma release_readonly_is_local_witness :
  exists w',
    mediafirefs_release X 0 "/f" f_handle f_readonly = Ret 0 w'
    /\ backend w' = backend f_readonly /\ calls w' = calls f_readonly.
Proof.
  destruct (release_readonly_is_local X 0 "/f" f_handle f_readonly
              {| fd := 0; path := "/f"; is_readonly := true; is_local := false |})
    as (w' & Hrun & Hb & Hc & _).
  - vm_compute. reflexivity.
  - reflexivity.
  - vm_compute. lia.
  - exists w'. auto.
Defined.

Lemma open_release_restores_witness :
  exists w2,
    mediafirefs_release X 0 "/f" f_handle f_readonly = Ret 0 w2
    /\ heap w2 = heap mounted.
Proof.
  destruct (open_release_restores X mounted f_readonly "/f" (info O_RDONLY)
              f_handle 0 "/f") as (w2 & Hrun & Hheap & _).
  - vm_compute. reflexivity.
  - vm_compute. reflexivity.
  - exists w2. auto.
Defined.

Lemma release_always_releases_witness :
  exists o,
    heap g_written !! fh g_handle = Some o
    /\ heap g_released !! fh g_handle = None
    /\ fdt (fs g_released) !! fd o = None.
Proof.
  destruct (release_always_releases X 3 "/g" g_handle g_written g_released 0)
    as (o & Ho & Hh & Hf & _).
  - vm_compute. reflexivity.
  - exists o. auto.
Defined.

Lemma release_uploads_staged_bytes_witness :
  exists (r : option Z) (w' : world state) (rest : list call),
    mediafirefs_release X 3 "/g" g_handle g_written
    = match r with Some v => Ret v w' | None => Spin w' end
    /\ calls w'
       = calls g_written ++ [CallTreePathGetKey "/";
                             CallUploadSimple (Some "myfiles") hey "g"] ++ rest.
Proof.
  apply (release_uploads_staged_bytes X 3 "/g" g_handle g_written
           {| fd := 0; path := "/g"; is_readonly := false; is_local := true |} hey).
  - vm_compute. reflexivity.
  - reflexivity.
  - reflexivity.
  - vm_compute. reflexivity.
  - vm_compute. reflexivity.
Defined.

Lemma write_then_read_witness :
  exists w',
    mediafirefs_write "/g" hey 5 g_handle g_created = Ret 3 w'
    /\ mediafirefs_read "/g" 3 5 g_handle w' = Ret (3, hey) w'.
Proof.
  apply (write_then_read g_created "/g" "/g" g_handle g_handle
           {| fd := 0; path := "/g"; is_readonly := false; is_local := true |}
           {| fd := 0; path := "/g"; is_readonly := false; is_local := true |}
           0%nat hey 5).
  - vm_compute. reflexivity.
  - vm_compute. reflexivity.
  - vm_compute. reflexivity.
  - vm_compute. reflexivity.
  - lia.
Defined.

Lemma release_upload_simple_failure_witness :
  returned (mediafirefs_release X 3 "/g" g_handle g_written_offline)
  = Some (- EACCES).
Proof.
  apply (release_upload_simple_failure X 3 "/g" g_handle g_written_offline
           {| fd := 0; path := "/g"; is_readonly := false; is_local := true |}
           hey (Some "myfiles") None (backend g_written_offline)
           (backend g_written_offline) (-1)).
  - vm_compute. reflexivity.
  - reflexivity.
  - reflexivity.
  - vm_compute. reflexivity.
  - vm_compute. reflexivity.
  - vm_compute. reflexivity.
  - vm_compute. reflexivity.
  - left. lia.
Defined.

Lemma release_upload_patch_failure_witness :
  returned (mediafirefs_release X 3 "/f" f_handle_rw f_overwritten_offline)
  = Some (- EACCES).
Proof.
  apply (release_upload_patch_failure X 3 "/f" f_handle_rw f_overwritten_offline
           {| fd := 0; path := "/f"; is_readonly := false; is_local := false |}
           (backend f_overwritten_offline) (-1)).
  - vm_compute. reflexivity.
  - reflexivity.
  - reflexivity.
  - vm_compute. reflexivity.
  - vm_compute. reflexivity.
  - lia.
Defined.

Lemma folder_create_rejects_witness :
  mfconn_api_folder_create X mfconn_of_ctx (Some "dcs45678901") (Some "") mounted
  = Ret (-1) mounted.
Proof.
  apply (folder_create_rejects X mounted mfconn_of_ctx (Some "dcs45678901") (Some "")).
  right. right. exists "". split; reflexivity.
Defined.

Lemma folder_create_request_witness :
  exists w',
    mfconn_api_folder_create X mfconn_of_ctx (Some "abc") (Some "sub") mounted
    = Ret 0 w'
    /\ calls w'
       = [CallSignedGet 0 "folder/create.php"
            "?parent_key=abc&foldername=sub&response_format=json";
          CallHttpGetBuf
            (Some "http://www.mediafire.com/api/folder/create.php?parent_key=abc&foldername=sub&response_format=json")].
Proof.
  destruct (folder_create_request X mounted (Some "abc") "sub")
    as (w' & Hrun & _ & Hcalls & _).
  - vm_compute. lia.
  - exists w'. split; [exact Hrun | exact Hcalls].
Defined.

Lemma mkdir_request_witness :
  exists w',
    mediafirefs_mkdir X "/docs/sub" perm_0755 mounted = Ret 0 w'
    /\ calls w'
       = [CallTreePathGetKey "/docs";
          CallSignedGet 0 "folder/create.php"
            "?parent_key=dcs45678901&foldername=sub&response_format=json";
          CallHttpGetBuf
            (Some "http://www.mediafire.com/api/folder/create.php?parent_key=dcs45678901&foldername=sub&response_format=json");
          CallTreeUpdate true].
Proof.
  destruct (mkdir_request X mounted "/docs" "sub" perm_0755 sub_no_slash
              ltac:(vm_compute; lia)) as (w' & Hrun & _ & Hcalls).
  exists w'. split; [exact Hrun | exact Hcalls].
Defined.

Lemma mkdir_trailing_slash_witness :
  mediafirefs_mkdir X "/docs/sub/" perm_0755 mounted
  = mediafirefs_mkdir X "/docs/sub" perm_0755 mounted.
Proof.
  apply (mkdir_trailing_slash X mounted "/docs/sub" perm_0755).
  - discriminate.
  - reflexivity.
Defined.

Lemma mkdir_without_parent_component_witness :
  mediafirefs_mkdir X "sub/" perm_0755 mounted = Ret (- ENOENT) mounted
  /\ mediafirefs_mkdir X "sub" perm_0755 mounted = Ret (- ENOENT) mounted.
Proof.
  destruct (mkdir_without_parent_component X mounted "sub" perm_0755 sub_no_slash)
    as [H1 H2].
  split; [exact H1 | apply H2; discriminate].
Defined.

Lemma mkdir_keeps_handles_witness :
  sv_writefiles docs_sub_made = sv_writefiles mounted
  /\ sv_readonlyfiles docs_sub_made = sv_readonlyfiles mounted
  /\ heap docs_sub_made = heap mounted /\ fs docs_sub_made = fs mounted.
Proof.
  apply (mkdir_keeps_handles X mounted docs_sub_made "/docs/sub" perm_0755 0).
  vm_compute. reflexivity.
Defined.

Lemma file_download_direct_refuses_witness :
  file_download_direct get_file size_of (Some File.file_alloc) (Some "/tmp") []
  = Downloaded (-1) [].
Proof.
  apply (file_download_direct_refuses get_file size_of (Some File.file_alloc)
           (Some "/tmp") []).
  right. right. left. reflexivity.
Defined.

Lemma file_download_direct_result_witness :
  file_download_direct get_file size_of (Some notes) (Some "/tmp/") []
  = Downloaded 9 [("/tmp/notes.txt", 9)].
Proof.
  apply (file_download_direct_result get_file size_of notes
           "http://download.example/notes" "/tmp/" []).
  - reflexivity.
  - vm_compute. lia.
  - vm_compute. discriminate.
Defined.

End MoreRuns.
